(** * The container monitor of option-5-docker/src/monitor.py

    A shallow embedding of [ContainerMonitor]: configuration loading from the
    environment, the connectivity probe, the heartbeat, the target sweep with
    its batched metric submission, the health and metrics views and the main
    loop; and of [check_health] of health_check.py, the script that asks the
    health view.

    Conventions of the model.
    - A Python [str] is a [string]; its characters are code points below 256.
    - [os.environ] is a [gmap string string]; [self.target_status] is a
      [gmap string TargetStatus].
    - [time.time()] and [datetime.now(timezone.utc)] read one wall clock whose
      readings are rationals (seconds); float rounding is not modelled.
    - The outside world (clock, network, metrics sink, signals) is a record of
      oracles indexed by the number of earlier uses; the code threads a
      [World] that counts the uses and records every sink call and every
      store into the shared status mapping.
    - A Python computation returns, raises an [Exception], or leaves through
      [sys.exit]; state changes made before a raise persist.
    - Termination signals are handled by [signal_handler], which is installed
      for SIGTERM and SIGINT; the model delivers them during the sleep of the
      loop, where the process spends its time.
    - Calls to [logger] have no effect on the state and are left out. *)

From Stdlib Require Import Ascii String QArith.

From stdpp Require Import gmap strings list fin_maps pretty.

Local Open Scope string_scope.

Local Open Scope Z_scope.

(** * Python strings *)

Module PyStr.

(** [str.isspace] on one code point below 256. *)
Definition isspace (c : ascii) : bool :=
  let n := nat_of_ascii c in
  ((9 <=? n)%nat && (n <=? 13)%nat)
  || ((28 <=? n)%nat && (n <=? 32)%nat)
  || (n =? 133)%nat || (n =? 160)%nat.

Fixpoint lstrip (s : string) : string :=
  match s with
  | EmptyString => EmptyString
  | String c s' => if isspace c then lstrip s' else s
  end.

Fixpoint rstrip (s : string) : string :=
  match s with
  | EmptyString => EmptyString
  | String c s' =>
      match rstrip s' with
      | EmptyString => if isspace c then EmptyString else String c EmptyString
      | r => String c r
      end
  end.

(** [s.strip()] *)
Definition strip (s : string) : string := rstrip (lstrip s).

(** [s.split(sep)] for a one-character separator: k separators give k+1
    fields, the empty string gives one empty field. *)
Fixpoint split (sep : ascii) (s : string) : list string :=
  match s with
  | EmptyString => [EmptyString]
  | String c s' =>
      if Ascii.eqb c sep then EmptyString :: split sep s'
      else match split sep s' with
           | f :: fs => String c f :: fs
           | [] => [String c EmptyString]
           end
  end.

(** [sep.join(fields)] *)
Fixpoint join (sep : ascii) (fields : list string) : string :=
  match fields with
  | [] => EmptyString
  | [f] => f
  | f :: fs => f ++ String sep (join sep fs)
  end.

(** [c in s] *)
Fixpoint contains (c : ascii) (s : string) : bool :=
  match s with
  | EmptyString => false
  | String c' s' => Ascii.eqb c' c || contains c s'
  end.

(** Truth value of a string: empty is false. *)
Definition truthy (s : string) : bool :=
  match s with EmptyString => false | _ => true end.

(** [s.lower()] on code points below 256. *)
Definition lower_char (c : ascii) : ascii :=
  let n := nat_of_ascii c in
  if ((65 <=? n)%nat && (n <=? 90)%nat)
     || ((192 <=? n)%nat && (n <=? 222)%nat && negb (n =? 215)%nat)
  then ascii_of_nat (n + 32) else c.

Fixpoint lower (s : string) : string :=
  match s with
  | EmptyString => EmptyString
  | String c s' => String (lower_char c) (lower s')
  end.

Definition digit_of (c : ascii) : option Z :=
  let n := nat_of_ascii c in
  if (48 <=? n)%nat && (n <=? 57)%nat then Some (Z.of_nat (n - 48)) else None.

(** The digits of a decimal literal as [int] reads them: single
    underscores are allowed between digits only. [prev] tells that the
    previous character was a digit. *)
Fixpoint int_digits (acc : Z) (prev : bool) (s : string) : option Z :=
  match s with
  | EmptyString => if prev then Some acc else None
  | String c s' =>
      match digit_of c with
      | Some d => int_digits (10 * acc + d) true s'
      | None =>
          if Ascii.eqb c "_" && prev then int_digits acc false s' else None
      end
  end.

(** [int(s)] in base 10: surrounding whitespace, an optional sign, digits.
    [None] stands for the [ValueError]. The interpreter's bound on the number
    of digits of a literal is not modelled. *)
Definition parse_int (s : string) : option Z :=
  match strip s with
  | String "-" r => Z.opp <$> int_digits 0 false r
  | String "+" r => int_digits 0 false r
  | t => int_digits 0 false t
  end.

End PyStr.

(** * Outcomes of a Python computation *)

Inductive exn : Type :=
| ValueError (msg : string)
| OverflowError (msg : string)
| OSError (msg : string)
| ClientError (msg : string)
| NoCredentialsError
| RuntimeError (msg : string).

Inductive result (A : Type) : Type :=
| Return (a : A)
| Raise (e : exn)
| SysExit (code : Z).

Arguments Return {A} a.

Arguments Raise {A} e.

Arguments SysExit {A} code.

Definition rbind {A B} (r : result A) (k : A -> result B) : result B :=
  match r with
  | Return a => k a
  | Raise e => Raise e
  | SysExit c => SysExit c
  end.

(** [int(s)] raising [ValueError]; the error carries the rejected literal. *)
Definition py_int (s : string) : result Z :=
  match PyStr.parse_int s with
  | Some z => Return z
  | None => Raise (ValueError s)
  end.

(** * Configuration *)

Record Config : Type := mkConfig {
  aws_access_key_id : option string;
  aws_secret_access_key : option string;
  aws_region : string;
  container_name : string;
  heartbeat_interval : Z;
  cloudwatch_namespace : string;
  monitor_targets : list string;
  target_port : Z;
  target_timeout : Z;
  enable_health_endpoint : bool;
  health_port : Z
}.

(** [os.getenv(key)] and [os.getenv(key, default)] *)
Definition getenv (environ : gmap string string) (key : string) : option string :=
  environ !! key.

Definition getenv_default (environ : gmap string string) (key dflt : string) : string :=
  default dflt (environ !! key).

Declare Scope py_scope.

Delimit Scope py_scope with py.

Notation "'let?' x ':=' e 'in' k" := (rbind e (fun x => k))
  (at level 10, x name, e at level 100, k at level 200) : py_scope.

Local Open Scope py_scope.

(** [ContainerMonitor._parse_targets] *)
Definition _parse_targets (targets_str : string) : list string :=
  if negb (PyStr.truthy targets_str) then []
  else List.map PyStr.strip
         (List.filter (fun target => PyStr.truthy (PyStr.strip target))
            (PyStr.split "," targets_str)).

(** Truth value of an optional string: [None] and the empty string are
    false. *)
Definition truthy_opt (o : option string) : bool :=
  match o with Some s => PyStr.truthy s | None => false end.

(** [ContainerMonitor._load_config]: the dictionary is built entry by entry,
    so the first integer that does not parse raises before the credentials
    are looked at. [hostname] is the value of [socket.gethostname()]. *)
Definition _load_config (environ : gmap string string) (hostname : string)
  : result Config :=
  let key := getenv environ "AWS_ACCESS_KEY_ID" in
  let secret := getenv environ "AWS_SECRET_ACCESS_KEY" in
  let region := getenv_default environ "AWS_REGION" "us-east-1" in
  let name := getenv_default environ "CONTAINER_NAME" hostname in
  let? interval := py_int (getenv_default environ "HEARTBEAT_INTERVAL" "300") in
  let namespace :=
    getenv_default environ "CLOUDWATCH_NAMESPACE" "ContainerMonitoring/Heartbeat" in
  let targets := _parse_targets (getenv_default environ "MONITOR_TARGETS" "") in
  let? port := py_int (getenv_default environ "TARGET_PORT" "80") in
  let? timeout := py_int (getenv_default environ "TARGET_TIMEOUT" "5") in
  let enable :=
    String.eqb (PyStr.lower (getenv_default environ "ENABLE_HEALTH_ENDPOINT" "false"))
      "true" in
  let? hport := py_int (getenv_default environ "HEALTH_PORT" "8080") in
  let config :=
    {| aws_access_key_id := key; aws_secret_access_key := secret;
       aws_region := region; container_name := name;
       heartbeat_interval := interval; cloudwatch_namespace := namespace;
       monitor_targets := targets; target_port := port;
       target_timeout := timeout; enable_health_endpoint := enable;
       health_port := hport |} in
  if negb (truthy_opt (aws_access_key_id config))
     || negb (truthy_opt (aws_secret_access_key config))
  then SysExit 1
  else Return config.

(** * Metric points and the shared status *)

Inductive MetricUnit : Type := Count | Milliseconds | Seconds.

Record MetricPoint : Type := mkMetric {
  MetricName : string;
  Dimensions : list (string * string);
  Value : Q;
  Unit_ : MetricUnit;
  Timestamp : Q
}.

(** The text of [t.isoformat()], kept as the instant it renders. *)
Inductive IsoString : Type := Iso (t : Q).

Definition isoformat (t : Q) : IsoString := Iso t.

Record TargetStatus : Type := mkStatus {
  online : bool;
  response_time : Q;
  last_check : IsoString
}.

(** The fields of [self]. The sink client [self.cloudwatch] is the oracle
    [put_metric_data] of the environment. *)
Record Monitor : Type := mkMonitor {
  config : Config;
  running : bool;
  start_time : Q;
  last_heartbeat : option Q;
  target_status : gmap string TargetStatus
}.

(** * The outside world *)

(** What the environment answers. Each oracle is indexed by the number of
    earlier uses of the same facility in this process. *)
Record Env : Type := mkEnv {
  (** the n-th reading of the wall clock, in seconds *)
  clock : nat -> Q;
  (** the startup call [list_metrics(MaxRecords=1)], with the client's
      construction: [None] when it returns *)
  list_metrics : option exn;
  (** the n-th connection attempt to (host, port): the error number that
      [connect_ex] returns, or the exception raised by [socket.socket],
      [connect_ex] (host resolution, port range) or [close] *)
  connect_ex : nat -> string -> Z -> exn + Z;
  (** the n-th call of the sink: [None] when it returns *)
  put_metric_data : nat -> string -> list MetricPoint -> option exn;
  (** the number of the termination signal delivered during the n-th sleep,
      if any *)
  signal_in_sleep : nat -> option Z
}.

(** What the process has done to the world so far. [status_writes] records
    the shared mapping after each store into it, latest first: these are the
    mappings a request served between two stores can read. *)
Record World : Type := mkWorld {
  clock_reads : nat;
  connects : nat;
  sleeps : nat;
  sink_calls : list (string * list MetricPoint);
  status_writes : list (gmap string TargetStatus)
}.

Definition world0 : World :=
  {| clock_reads := 0; connects := 0; sleeps := 0; sink_calls := [];
     status_writes := [] |}.

(** * Computations with state and exceptions *)

(** A computation on a state [S]: the state it leaves and how it ends. *)
Definition M (S A : Type) : Type := S -> S * result A.

Definition ret {S A} (a : A) : M S A := fun s => (s, Return a).

Definition bind {S A B} (m : M S A) (k : A -> M S B) : M S B :=
  fun s =>
    match m s with
    | (s', Return a) => k a s'
    | (s', Raise e) => (s', Raise e)
    | (s', SysExit c) => (s', SysExit c)
    end.

Definition sys_exit {S A} (code : Z) : M S A := fun s => (s, SysExit code).

Definition gets {S A} (f : S -> A) : M S A := fun s => (s, Return (f s)).

Definition modify {S} (f : S -> S) : M S unit := fun s => (f s, Return tt).

(** [try: body / except Exception as e: handler e]. [sys.exit] is not an
    [Exception] and passes through. *)
Definition try_except {S A} (body : M S A) (handler : exn -> M S A) : M S A :=
  fun s =>
    match body s with
    | (s', Raise e) => handler e s'
    | r => r
    end.

Notation "'let*' x ':=' e 'in' k" := (bind e (fun x => k))
  (at level 10, x name, e at level 100, k at level 200) : py_scope.

Notation "e '>>' k" := (bind e (fun _ => k))
  (at level 60, right associativity) : py_scope.

(** [for x in xs: body x] *)
Fixpoint for_each {S A} (xs : list A) (body : A -> M S unit) : M S unit :=
  match xs with
  | [] => ret tt
  | x :: xs' => body x >> for_each xs' body
  end.

(** [range(start, stop, step)] for a positive step, by iteration: [fuel]
    bounds the number of elements. *)
Fixpoint range_from (fuel : nat) (i stop step : nat) : list nat :=
  match fuel with
  | O => []
  | S fuel' => if (i <? stop)%nat then i :: range_from fuel' (i + step)%nat stop step else []
  end.

Definition range (start stop step : nat) : list nat :=
  range_from (stop - start) start stop step.

(** [xs[i:j]] for indices within the usual range *)
Definition slice {A} (i j : nat) (xs : list A) : list A :=
  take (j - i) (drop i xs).

(** * The state of the monitor and its primitive operations *)

(** The world as the process has changed it, and the monitor object. *)
Record St : Type := mkSt { world : World; self : Monitor }.

Definition set_world (f : World -> World) (s : St) : St :=
  {| world := f (world s); self := self s |}.

Definition set_self (f : Monitor -> Monitor) (s : St) : St :=
  {| world := world s; self := f (self s) |}.

Definition set_running (b : bool) (m : Monitor) : Monitor :=
  {| config := config m; running := b; start_time := start_time m;
     last_heartbeat := last_heartbeat m; target_status := target_status m |}.

Definition set_last_heartbeat (t : Q) (m : Monitor) : Monitor :=
  {| config := config m; running := running m; start_time := start_time m;
     last_heartbeat := Some t; target_status := target_status m |}.

Definition set_target_status (ts : gmap string TargetStatus) (m : Monitor) : Monitor :=
  {| config := config m; running := running m; start_time := start_time m;
     last_heartbeat := last_heartbeat m; target_status := ts |}.

Definition tick_clock (w : World) : World :=
  {| clock_reads := S (clock_reads w); connects := connects w; sleeps := sleeps w;
     sink_calls := sink_calls w; status_writes := status_writes w |}.

Definition tick_connects (w : World) : World :=
  {| clock_reads := clock_reads w; connects := S (connects w); sleeps := sleeps w;
     sink_calls := sink_calls w; status_writes := status_writes w |}.

Definition tick_sleeps (w : World) : World :=
  {| clock_reads := clock_reads w; connects := connects w; sleeps := S (sleeps w);
     sink_calls := sink_calls w; status_writes := status_writes w |}.

Definition log_sink_call (ns : string) (batch : list MetricPoint) (w : World) : World :=
  {| clock_reads := clock_reads w; connects := connects w; sleeps := sleeps w;
     sink_calls := (sink_calls w ++ [(ns, batch)])%list; status_writes := status_writes w |}.

Definition log_status_write (ts : gmap string TargetStatus) (w : World) : World :=
  {| clock_reads := clock_reads w; connects := connects w; sleeps := sleeps w;
     sink_calls := sink_calls w; status_writes := ts :: status_writes w |}.

(** Truth value of a list: empty is false. *)
Definition truthy_list {A} (l : list A) : bool :=
  match l with [] => false | _ => true end.

(** * The methods of [ContainerMonitor] *)

Section Runtime.

Variable env : Env.

(** [time.time()]; [datetime.now(timezone.utc)] reads the same clock. *)
Definition time_time : M St Q :=
  fun s => (set_world tick_clock s, Return (clock env (clock_reads (world s)))).

Definition datetime_now : M St Q := time_time.

(** [self.cloudwatch.put_metric_data(Namespace=ns, MetricData=batch)] *)
Definition cloudwatch_put_metric_data (ns : string) (batch : list MetricPoint)
  : M St unit :=
  fun s =>
    let n := length (sink_calls (world s)) in
    let s' := set_world (log_sink_call ns batch) s in
    match put_metric_data env n ns batch with
    | None => (s', Return tt)
    | Some e => (s', Raise e)
    end.

(** The socket part of a probe: [settimeout] refuses a negative value,
    then the connection attempt answers. *)
Definition socket_connect (host : string) (port timeout : Z) : M St Z :=
  fun s =>
    if timeout <? 0 then (s, Raise (ValueError "Timeout value out of range"))
    else
      let n := connects (world s) in
      let s' := set_world tick_connects s in
      match connect_ex env n host port with
      | inr code => (s', Return code)
      | inl e => (s', Raise e)
      end.

(** [self.target_status[target] = entry]: the shared dictionary is updated
    in place. *)
Definition store_target_status (target : string) (entry : TargetStatus) : M St unit :=
  fun s =>
    let ts := <[target := entry]> (target_status (self s)) in
    (set_world (log_status_write ts) (set_self (set_target_status ts) s), Return tt).

(** [monitor.stop()] *)
Definition stop : M St unit := modify (set_self (set_running false)).

(** [signal_handler], once [monitor] exists: [monitor.stop()], then
    [sys.exit(0)]. *)
Definition signal_handler (signum : Z) : M St unit := stop >> sys_exit 0.

(** [time.sleep(secs)]: a negative length is refused; a termination signal
    that arrives during the sleep runs [signal_handler] in the sleeping
    thread. *)
Definition time_sleep (secs : Z) : M St unit :=
  fun s =>
    if secs <? 0 then (s, Raise (ValueError "sleep length must be non-negative"))
    else
      let n := sleeps (world s) in
      let s' := set_world tick_sleeps s in
      match signal_in_sleep env n with
      | Some signum => signal_handler signum s'
      | None => (s', Return tt)
      end.

(** [ContainerMonitor.__init__]: load the configuration, set the fields,
    then build the sink client and try it with [list_metrics]; any failure
    there ends the process with [sys.exit(1)]. *)
Definition __init__ (environ : gmap string string) (hostname : string)
  : M World Monitor :=
  fun w =>
    match _load_config environ hostname with
    | Return cfg =>
        let t := clock env (clock_reads w) in
        let w' := tick_clock w in
        match list_metrics env with
        | None =>
            (w', Return {| config := cfg; running := false; start_time := t;
                           last_heartbeat := None; target_status := ∅ |})
        | Some _ => (w', SysExit 1)
        end
    | Raise e => (w, Raise e)
    | SysExit c => (w, SysExit c)
    end.

(** The two points of a heartbeat. *)
Definition heartbeat_metrics (cfg : Config) (current_time uptime : Q)
  : list MetricPoint :=
  let dims := [("ContainerName", container_name cfg); ("Region", aws_region cfg)] in
  [ {| MetricName := "ContainerHeartbeat"; Dimensions := dims; Value := 1;
       Unit_ := Count; Timestamp := current_time |};
    {| MetricName := "ContainerUptime"; Dimensions := dims; Value := uptime;
       Unit_ := Seconds; Timestamp := current_time |} ].

(** [ContainerMonitor.send_heartbeat] *)
Definition send_heartbeat : M St unit :=
  try_except
    (let* current_time := datetime_now in
     let* t := time_time in
     let* m := gets self in
     let uptime := (t - start_time m)%Q in
     let metrics := heartbeat_metrics (config m) current_time uptime in
     cloudwatch_put_metric_data (cloudwatch_namespace (config m)) metrics >>
     modify (set_self (set_last_heartbeat current_time)))
    (fun e => ret tt).

(** [ContainerMonitor.check_target_connectivity] *)
Definition check_target_connectivity (target_ip : string) : M St (bool * Q) :=
  let* start := time_time in
  try_except
    (let* cfg := gets (fun s => config (self s)) in
     let* code := socket_connect target_ip (target_port cfg) (target_timeout cfg) in
     let* t := time_time in
     let duration := ((t - start) * 1000)%Q in
     let is_online := code =? 0 in
     ret (is_online, duration))
    (fun e =>
       let* t := time_time in
       let duration := ((t - start) * 1000)%Q in
       ret (false, duration)).

(** The dimensions of a target's points; the port is written with [str]. *)
Definition target_dimensions (cfg : Config) (target : string) : list (string * string) :=
  [("ContainerName", container_name cfg); ("TargetIP", target);
   ("TargetPort", pretty (target_port cfg))].

(** The points of one probed target: its status and, when it is online,
    its response time. *)
Definition target_point_metrics (cfg : Config) (current_time : Q) (target : string)
    (is_online : bool) (rt : Q) : list MetricPoint :=
  {| MetricName := "TargetStatus"; Dimensions := target_dimensions cfg target;
     Value := if is_online then 1 else 0; Unit_ := Count;
     Timestamp := current_time |}
  :: (if is_online
      then [ {| MetricName := "TargetResponseTime";
                Dimensions := target_dimensions cfg target;
                Value := rt; Unit_ := Milliseconds; Timestamp := current_time |} ]
      else []).

(** One iteration of the loop over the targets: probe, store the status
    entry, append the metric points. *)
Definition sweep_target (cfg : Config) (current_time : Q)
    (metrics : list MetricPoint) (target : string) : M St (list MetricPoint) :=
  let* r := check_target_connectivity target in
  store_target_status target
    {| online := r.1; response_time := r.2;
       last_check := isoformat current_time |} >>
  ret (metrics ++ target_point_metrics cfg current_time target r.1 r.2)%list.

(** [for target in targets: ...] with the local list [metrics] *)
Fixpoint sweep_targets (cfg : Config) (current_time : Q)
    (targets : list string) (metrics : list MetricPoint) : M St (list MetricPoint) :=
  match targets with
  | [] => ret metrics
  | target :: rest =>
      let* metrics' := sweep_target cfg current_time metrics target in
      sweep_targets cfg current_time rest metrics'
  end.

(** [for i in range(0, len(metrics), 20): put_metric_data(metrics[i:i+20])] *)
Definition send_batches (ns : string) (metrics : list MetricPoint) : M St unit :=
  for_each (range 0 (length metrics) 20)
    (fun i => cloudwatch_put_metric_data ns (slice i (i + 20) metrics)).

(** [ContainerMonitor.send_target_metrics] *)
Definition send_target_metrics : M St unit :=
  let* cfg := gets (fun s => config (self s)) in
  if negb (truthy_list (monitor_targets cfg)) then ret tt
  else
    try_except
      (let* current_time := datetime_now in
       let* metrics := sweep_targets cfg current_time (monitor_targets cfg) [] in
       if truthy_list metrics
       then send_batches (cloudwatch_namespace cfg) metrics
       else ret tt)
      (fun e => ret tt).

End Runtime.

(** * The health view and the main loop *)

Record HealthData : Type := mkHealth {
  status : string;
  hd_container_name : string;
  uptime_seconds : Q;
  hd_last_heartbeat : option IsoString;
  hd_target_status : option (gmap string TargetStatus);
  timestamp : IsoString
}.

(** Nearest integer, ties to the even one. *)
Definition round_half_even (q : Q) : Z :=
  let n := Qnum q in
  let d := Z.pos (Qden q) in
  let fl := n / d in
  let r2 := 2 * (n mod d) in
  if r2 <? d then fl
  else if d <? r2 then fl + 1
  else if Z.even fl then fl else fl + 1.

(** [round(x, 1)] *)
Definition round1 (q : Q) : Q := Qmake (round_half_even (q * 10)) 10.

Inductive LoopExit : Type :=
| LoopEnded      (* the [while] loop was left *)
| OutOfFuel.     (* the loop is still running after [fuel] iterations *)

Section Serving.

Variable env : Env.

(** The handler of [GET /health], run on the state it finds. The
    [target_status] it returns is the shared dictionary itself. *)
Definition health : M St HealthData :=
  let* t := time_time env in
  let* m := gets self in
  let uptime := (t - start_time m)%Q in
  let* now := datetime_now env in
  ret {| status := if running m then "healthy" else "unhealthy";
         hd_container_name := container_name (config m);
         uptime_seconds := round1 uptime;
         hd_last_heartbeat := isoformat <$> last_heartbeat m;
         hd_target_status :=
           if truthy_list (monitor_targets (config m))
           then Some (target_status m) else None;
         timestamp := isoformat now |}.

(** [while self.running: ...], at most [fuel] iterations. *)
Fixpoint monitoring_loop (fuel : nat) : M St LoopExit :=
  let* r := gets (fun s => running (self s)) in
  if negb r then ret LoopEnded
  else
    match fuel with
    | O => ret OutOfFuel
    | S fuel' =>
        let* cfg := gets (fun s => config (self s)) in
        time_sleep env (heartbeat_interval cfg) >>
        let* r' := gets (fun s => running (self s)) in
        if negb r' then ret LoopEnded
        else
          send_heartbeat env >>
          (if truthy_list (monitor_targets cfg)
           then send_target_metrics env else ret tt) >>
          monitoring_loop fuel'
    end.

(** [run]: the flag, the first heartbeat and sweep, then the loop inside
    [try / except Exception / finally]. The [finally] clause runs when the
    loop is left, not when the fuel of the model runs out. *)
Definition run (fuel : nat) : M St LoopExit :=
  modify (set_self (set_running true)) >>
  let* cfg := gets (fun s => config (self s)) in
  send_heartbeat env >>
  (if truthy_list (monitor_targets cfg) then send_target_metrics env else ret tt) >>
  fun s =>
    match try_except (monitoring_loop fuel) (fun e => ret LoopEnded) s with
    | (s', Return OutOfFuel) => (s', Return OutOfFuel)
    | (s', r) => (set_self (set_running false) s', r)
    end.

End Serving.

(** The whole process: construct the monitor, then run it. *)
Definition main (env : Env) (environ : gmap string string) (hostname : string)
    (fuel : nat) : World * result LoopExit :=
  match __init__ env environ hostname world0 with
  | (w, Return m) =>
      let (s, r) := run env fuel {| world := w; self := m |} in (world s, r)
  | (w, Raise e) => (w, Raise e)
  | (w, SysExit c) => (w, SysExit c)
  end.

(** * Vocabulary of the statements *)

(** The configuration that [_load_config] builds from parsed integers. *)
Definition config_of (environ : gmap string string) (hostname : string)
    (interval port timeout hport : Z) : Config :=
  {| aws_access_key_id := getenv environ "AWS_ACCESS_KEY_ID";
     aws_secret_access_key := getenv environ "AWS_SECRET_ACCESS_KEY";
     aws_region := getenv_default environ "AWS_REGION" "us-east-1";
     container_name := getenv_default environ "CONTAINER_NAME" hostname;
     heartbeat_interval := interval;
     cloudwatch_namespace :=
       getenv_default environ "CLOUDWATCH_NAMESPACE" "ContainerMonitoring/Heartbeat";
     monitor_targets := _parse_targets (getenv_default environ "MONITOR_TARGETS" "");
     target_port := port;
     target_timeout := timeout;
     enable_health_endpoint :=
       String.eqb
         (PyStr.lower (getenv_default environ "ENABLE_HEALTH_ENDPOINT" "false")) "true";
     health_port := hport |}.

(** What [_load_config] asks of the environment: four integers that parse
    and two credentials that are not empty. *)
Definition config_accepted (environ : gmap string string)
    (interval port timeout hport : Z) : Prop :=
  PyStr.parse_int (getenv_default environ "HEARTBEAT_INTERVAL" "300") = Some interval
  /\ PyStr.parse_int (getenv_default environ "TARGET_PORT" "80") = Some port
  /\ PyStr.parse_int (getenv_default environ "TARGET_TIMEOUT" "5") = Some timeout
  /\ PyStr.parse_int (getenv_default environ "HEALTH_PORT" "8080") = Some hport
  /\ truthy_opt (getenv environ "AWS_ACCESS_KEY_ID") = true
  /\ truthy_opt (getenv environ "AWS_SECRET_ACCESS_KEY") = true.

(** The answer of the sink to the heartbeat sent from state [s]. *)
Definition heartbeat_sink_answer (env : Env) (s : St) : option exn :=
  let n := clock_reads (world s) in
  let m := self s in
  put_metric_data env (length (sink_calls (world s)))
    (cloudwatch_namespace (config m))
    (heartbeat_metrics (config m) (clock env n)
       (clock env (S n) - start_time m)%Q).

(** The connection attempt from state [s] completes: the timeout is one that
    [settimeout] takes and [connect_ex] answers 0. *)
Definition connection_made (env : Env) (s : St) (target : string) : bool :=
  let cfg := config (self s) in
  negb (target_timeout cfg <? 0)
  && match connect_ex env (connects (world s)) target (target_port cfg) with
     | inr code => code =? 0
     | inl _ => false
     end.

(** The milliseconds between the two clock readings of a probe from [s]. *)
Definition probe_elapsed (env : Env) (s : St) : Q :=
  let n := clock_reads (world s) in
  ((clock env (S n) - clock env n) * 1000)%Q.

(** The state after a probe from [s]: two clock readings and, unless
    [settimeout] refused the timeout, one connection attempt. *)
Definition after_probe (s : St) : St :=
  set_world tick_clock
    (set_world (if target_timeout (config (self s)) <? 0 then id else tick_connects)
       (set_world tick_clock s)).

(** The batches that the loop of [send_batches] cuts out of [metrics]. *)
Definition batches (metrics : list MetricPoint) : list (list MetricPoint) :=
  List.map (fun i => slice i (i + 20) metrics) (range 0 (length metrics) 20).

(** The quotient rounded up. *)
Definition ceil_div (n d : nat) : nat := (n + d - 1) / d.

(** The calls that reach the sink when [bs] are submitted in turn, the first
    being call number [n] of the process, and the exception that ends the
    submission, if any. *)
Fixpoint attempted (env : Env) (n : nat) (ns : string) (bs : list (list MetricPoint))
  : list (list MetricPoint) * option exn :=
  match bs with
  | [] => ([], None)
  | b :: bs' =>
      match put_metric_data env n ns b with
      | None => let r := attempted env (S n) ns bs' in (b :: fst r, snd r)
      | Some e => ([b], Some e)
      end
  end.

(** The state after the sink has been called with each of [calls]. *)
Definition log_sink_calls (ns : string) (calls : list (list MetricPoint)) (s : St) : St :=
  fold_left (fun s b => set_world (log_sink_call ns b) s) calls s.

(** How a submission ends. *)
Definition answer_of (r : option exn) : result unit :=
  match r with None => Return tt | Some e => Raise e end.

(** The status entry that a probe of [target] from state [s] leaves. *)
Definition entry_at (env : Env) (ct : Q) (target : string) (s : St) : TargetStatus :=
  {| online := connection_made env s target;
     response_time := probe_elapsed env s;
     last_check := isoformat ct |}.

(** The state after one iteration of the loop over the targets. *)
Definition after_target (env : Env) (ct : Q) (target : string) (s : St) : St :=
  let ts := <[target := entry_at env ct target s]> (target_status (self s)) in
  set_world (log_status_write ts) (set_self (set_target_status ts) (after_probe s)).

(** The points that a probe of [target] from state [s] adds. *)
Definition points_at (env : Env) (cfg : Config) (ct : Q) (target : string) (s : St)
  : list MetricPoint :=
  target_point_metrics cfg ct target (connection_made env s target) (probe_elapsed env s).

(** The state after the loop over [targets], and the points it collects. *)
Fixpoint swept (env : Env) (cfg : Config) (ct : Q) (targets : list string) (s : St)
  : St * list MetricPoint :=
  match targets with
  | [] => (s, [])
  | t :: rest =>
      let r := swept env cfg ct rest (after_target env ct t s) in
      (fst r, (points_at env cfg ct t s ++ snd r)%list)
  end.

(** The state in which the sink receives the batches of a sweep from [s]. *)
Definition swept_state (env : Env) (s : St) : St :=
  fst (swept env (config (self s)) (clock env (clock_reads (world s)))
         (monitor_targets (config (self s))) (set_world tick_clock s)).

(** The points that a sweep from [s] collects. *)
Definition swept_metrics (env : Env) (s : St) : list MetricPoint :=
  snd (swept env (config (self s)) (clock env (clock_reads (world s)))
         (monitor_targets (config (self s))) (set_world tick_clock s)).

(** The mappings stored by the loop over [targets] from state [s], first
    store first. *)
Fixpoint sweep_writes (env : Env) (ct : Q) (targets : list string) (s : St)
  : list (gmap string TargetStatus) :=
  match targets with
  | [] => []
  | t :: rest =>
      target_status (self (after_target env ct t s))
      :: sweep_writes env ct rest (after_target env ct t s)
  end.

(** [P] holds after [m] whenever it held before, however [m] ends. *)
Definition preserves {A} (P : St -> Prop) (m : M St A) : Prop :=
  forall s, P s -> P (fst (m s)).

(** The keys of the shared mapping, now and at every store so far, are
    configured targets. *)
Definition status_inv (cfg : Config) (s : St) : Prop :=
  config (self s) = cfg
  /\ dom (target_status (self s)) ⊆ list_to_set (monitor_targets cfg)
  /\ Forall (fun ts => dom ts ⊆@{gset string} list_to_set (monitor_targets cfg))
       (status_writes (world s)).

(** The same, with every configured target present. *)
Definition status_full (cfg : Config) (s : St) : Prop :=
  status_inv cfg s
  /\ dom (target_status (self s)) = list_to_set (monitor_targets cfg).

(** The first heartbeat and sweep of [run]. *)
Definition first_round (env : Env) : M St unit :=
  modify (set_self (set_running true)) >>
  let* cfg := gets (fun s => config (self s)) in
  send_heartbeat env >>
  (if truthy_list (monitor_targets cfg) then send_target_metrics env else ret tt).

(** The state in which the loop of [run] starts the sweep of its first
    iteration. *)
Definition before_second_sweep (env : Env) (s : St) : St :=
  fst ((first_round env >>
        time_sleep env (heartbeat_interval (config (self s))) >>
        send_heartbeat env) s).

(** * Sample worlds and states *)

(** An environment with an interval of 0 and a timeout of -1. *)
Definition environ_nonpositive : gmap string string :=
  <["AWS_ACCESS_KEY_ID" := "AKIAEXAMPLE"]>
    (<["AWS_SECRET_ACCESS_KEY" := "secret"]>
       (<["HEARTBEAT_INTERVAL" := "0"]> (<["TARGET_TIMEOUT" := "-1"]> ∅))).

(** An environment in which nothing fails and no signal arrives. *)
Definition quiet_env : Env :=
  {| clock := fun n => inject_Z (Z.of_nat n);
     list_metrics := None;
     connect_ex := fun _ _ _ => inr 0;
     put_metric_data := fun _ _ _ => None;
     signal_in_sleep := fun _ => None |}.

(** An environment whose sink refuses every call. *)
Definition failing_sink_env : Env :=
  {| clock := fun n => inject_Z (Z.of_nat n);
     list_metrics := None;
     connect_ex := fun _ _ _ => inr 0;
     put_metric_data := fun _ _ _ => Some (ClientError "Throttling");
     signal_in_sleep := fun _ => None |}.

(** A configuration with the default settings and the given targets. *)
Definition plain_config (targets : list string) : Config :=
  {| aws_access_key_id := Some "AKIAEXAMPLE"; aws_secret_access_key := Some "secret";
     aws_region := "us-east-1"; container_name := "box";
     heartbeat_interval := 300;
     cloudwatch_namespace := "ContainerMonitoring/Heartbeat";
     monitor_targets := targets; target_port := 80; target_timeout := 5;
     enable_health_endpoint := true; health_port := 8080 |}.

(** A running monitor whose last heartbeat was at time 7. *)
Definition beating_state (targets : list string) : St :=
  {| world := world0;
     self := {| config := plain_config targets; running := true; start_time := 0;
                last_heartbeat := Some (7 # 1)%Q; target_status := ∅ |} |}.


(** [n] distinct hosts. *)
Definition hosts (n : nat) : list string :=
  List.map (fun i => "10.0.0." ++ pretty i) (seq 1 n).

(** An environment in which every connection is refused (error 111) and
    the sink answers as [sink] says. *)
Definition refusing_env (sink : nat -> option exn) : Env :=
  {| clock := fun n => inject_Z (Z.of_nat n);
     list_metrics := None;
     connect_ex := fun _ _ _ => inr 111;
     put_metric_data := fun n _ _ => sink n;
     signal_in_sleep := fun _ => None |}.

(** The [n] points of a sweep over [n] refusing hosts. *)
Definition sample_points (n : nat) : list MetricPoint :=
  swept_metrics (refusing_env (fun _ => None)) (beating_state (hosts n)).

(** A sink that refuses call number [k] of the process and takes the others. *)
Definition refuse_call (k : nat) (n : nat) : option exn :=
  if (n =? k)%nat then Some (ClientError "Throttling") else None.

(** An environment that lists one host twice. *)
Definition environ_twice : gmap string string :=
  <["AWS_ACCESS_KEY_ID" := "AKIAEXAMPLE"]>
    (<["AWS_SECRET_ACCESS_KEY" := "secret"]>
       (<["MONITOR_TARGETS" := "10.0.0.1,10.0.0.1"]> ∅)).

(** An environment that lists two hosts. *)
Definition environ_pair : gmap string string :=
  <["AWS_ACCESS_KEY_ID" := "AKIAEXAMPLE"]>
    (<["AWS_SECRET_ACCESS_KEY" := "secret"]>
       (<["MONITOR_TARGETS" := "10.0.0.1,10.0.0.2"]> ∅)).

(** The monitor that [__init__] builds in a quiet world, for an environment
    that it accepts. *)
Definition built (environ : gmap string string) : St :=
  match __init__ quiet_env environ "host" world0 with
  | (w, Return m) => {| world := w; self := m |}
  | (w, _) => beating_state []
  end.

(** * The metrics view *)

(** The double quote and the line feed. *)
Definition dquote : string := String "034"%char EmptyString.

Definition newline : ascii := "010"%char.

(** [f'{x:.1f}']: the nearest number with one decimal, ties to even, with a
    minus sign for every negative [x]. *)
Definition format_1f (q : Q) : string :=
  let n := round_half_even (Qmake (Z.abs (Qnum q)) (Qden q) * 10) in
  (if Qnum q <? 0 then "-" else "") ++ pretty (n / 10) ++ "." ++ pretty (n mod 10).

(** The lines that the loop of [metrics] appends for one item of
    [self.target_status]. *)
Definition target_lines (name : string) (item : string * TargetStatus) : list string :=
  let labels :=
    "{container_name=" ++ dquote ++ name ++ dquote
    ++ ",target=" ++ dquote ++ item.1 ++ dquote ++ "} " in
  ("target_status" ++ labels ++ (if online item.2 then "1" else "0"))
  :: (if online item.2
      then ["target_response_time_ms" ++ labels ++ format_1f (response_time item.2)]
      else []).

(** The list [metrics] of the handler, for the items of the status
    dictionary in the order in which the dictionary yields them. *)
Definition metrics_lines (name : string) (uptime : Q)
    (items : list (string * TargetStatus)) : list string :=
  ["container_heartbeat{container_name=" ++ dquote ++ name ++ dquote ++ "} 1";
   "container_uptime_seconds{container_name=" ++ dquote ++ name ++ dquote ++ "} "
     ++ format_1f uptime]
  ++ List.concat (List.map (target_lines name) items).

(** The handler of [GET /metrics]: body, status code and headers. The order
    in which a dictionary yields its items is not modelled; the handler
    takes them as [map_to_list] gives them. *)
Definition metrics (env : Env) : M St (string * Z * list (string * string)) :=
  let* t := time_time env in
  let* m := gets self in
  let uptime := (t - start_time m)%Q in
  ret (PyStr.join newline
         (metrics_lines (container_name (config m)) uptime
            (map_to_list (target_status m)))
       ++ String newline EmptyString,
       200, [("Content-Type", "text/plain")]).

(** * The container health check of health_check.py *)

(** A parsed JSON document. [JIso] is a string: the ISO text of an instant.
    The fields of [JObj] are the items of the parsed dictionary. *)
Inductive json : Type :=
| JNull
| JBool (b : bool)
| JNum (q : Q)
| JStr (s : string)
| JIso (t : IsoString)
| JArr (items : list json)
| JObj (fields : list (string * json)).

(** The exceptions that [check_health] tells apart: those of [requests], and
    all the others, given by the name of their class. *)
Inductive hc_exn : Type :=
| RequestException (msg : string)
| OtherException (cls msg : string).

(** The answer to an HTTP request: the status code and what
    [response.json()] gives. *)
Record Response : Type := mkResponse {
  status_code : Z;
  response_json : hc_exn + json
}.

(** How [import monitor] ends. *)
Inductive ImportOutcome : Type :=
| Imported
| ImportErrorRaised (msg : string)
| ImportRaised (e : hc_exn).

(** What the health check finds around it. *)
Record CheckEnv : Type := mkCheckEnv {
  requests_get : string -> hc_exn + Response;
  import_monitor : ImportOutcome
}.

(** The line that [check_health] prints. *)
Inductive Printed : Type :=
| PassedHealthy
| FailedStatus (found : option json)
| FailedHttp (code : Z)
| PassedImportable
| FailedImport (msg : string)
| FailedConnect (e : hc_exn)
| FailedUnexpected (e : hc_exn).

(** [data.get(key)]: only a dictionary has [get]. *)
Definition json_get (data : json) (key : string) : hc_exn + option json :=
  match data with
  | JObj fields => inr (snd <$> List.find (fun kv => String.eqb kv.1 key) fields)
  | _ => inl (OtherException "AttributeError" "no attribute 'get'")
  end.

(** [value == 'healthy'] for what [get] returned. *)
Definition is_healthy (value : option json) : bool :=
  match value with
  | Some (JStr s) => String.eqb s "healthy"
  | _ => false
  end.

(** The body of the [try] of [check_health]: what it prints and returns, or
    the exception that leaves it. *)
Definition check_health_try (environ : gmap string string) (cenv : CheckEnv)
  : hc_exn + (Printed * bool) :=
  let enable_health :=
    String.eqb (PyStr.lower (getenv_default environ "ENABLE_HEALTH_ENDPOINT" "false"))
      "true" in
  match PyStr.parse_int (getenv_default environ "HEALTH_PORT" "8080") with
  | None => inl (OtherException "ValueError" (getenv_default environ "HEALTH_PORT" "8080"))
  | Some health_port =>
      if enable_health then
        match requests_get cenv ("http://localhost:" ++ pretty health_port ++ "/health") with
        | inl e => inl e
        | inr response =>
            if status_code response =? 200 then
              match response_json response with
              | inl e => inl e
              | inr data =>
                  match json_get data "status" with
                  | inl e => inl e
                  | inr value =>
                      if is_healthy value then inr (PassedHealthy, true)
                      else inr (FailedStatus value, false)
                  end
              end
            else inr (FailedHttp (status_code response), false)
        end
      else
        match import_monitor cenv with
        | Imported => inr (PassedImportable, true)
        | ImportErrorRaised msg => inr (FailedImport msg, false)
        | ImportRaised e => inl e
        end
  end.

(** [check_health]: the two handlers turn every exception into [False]. *)
Definition check_health (environ : gmap string string) (cenv : CheckEnv)
  : Printed * bool :=
  match check_health_try environ cenv with
  | inr r => r
  | inl (RequestException msg) => (FailedConnect (RequestException msg), false)
  | inl e => (FailedUnexpected e, false)
  end.

(** The exit status of the script. *)
Definition health_check_main (environ : gmap string string) (cenv : CheckEnv) : Z :=
  if (check_health environ cenv).2 then 0 else 1.

(** [jsonify(health_data)] as the client parses it. *)
Definition status_json (st : TargetStatus) : json :=
  JObj [("online", JBool (online st)); ("response_time", JNum (response_time st));
        ("last_check", JIso (last_check st))].

Definition jsonify (doc : HealthData) : json :=
  JObj [("status", JStr (status doc));
        ("container_name", JStr (hd_container_name doc));
        ("uptime_seconds", JNum (uptime_seconds doc));
        ("last_heartbeat", from_option JIso JNull (hd_last_heartbeat doc));
        ("target_status",
         from_option
           (fun ts => JObj (List.map (fun kv => (kv.1, status_json kv.2)) (map_to_list ts)))
           JNull (hd_target_status doc));
        ("timestamp", JIso (timestamp doc))].

(** * Further vocabulary *)

(** The first of the four integer settings, in the order in which
    [_load_config] reads them, that [int] refuses. *)
Definition first_bad_int (environ : gmap string string) : option string :=
  List.find (fun v => match PyStr.parse_int v with Some _ => false | None => true end)
    [getenv_default environ "HEARTBEAT_INTERVAL" "300";
     getenv_default environ "TARGET_PORT" "80";
     getenv_default environ "TARGET_TIMEOUT" "5";
     getenv_default environ "HEALTH_PORT" "8080"].

(** A character is [c], in either case. *)
Definition letter (lo up : ascii) (c : ascii) : Prop := c = lo \/ c = up.

(** The spellings of "true" that switch the health endpoint on. *)
Definition spells_true (v : string) : Prop :=
  exists a b c d,
    v = String a (String b (String c (String d EmptyString)))
    /\ letter "t" "T" a /\ letter "r" "R" b /\ letter "u" "U" c /\ letter "e" "E" d.

(** A sink call that carries the heartbeat point. *)
Definition is_heartbeat_call (call : string * list MetricPoint) : bool :=
  existsb (fun p => String.eqb (MetricName p) "ContainerHeartbeat") call.2.

(** The points of a list with a given name. *)
Definition named (name : string) (points : list MetricPoint) : list MetricPoint :=
  List.filter (fun p => String.eqb (MetricName p) name) points.

(** An environment that switches the health endpoint on in capitals and
    gives the port in decimal. *)
Definition environ_endpoint : gmap string string :=
  <["AWS_ACCESS_KEY_ID" := "AKIAEXAMPLE"]>
    (<["AWS_SECRET_ACCESS_KEY" := "secret"]>
       (<["ENABLE_HEALTH_ENDPOINT" := "TRUE"]>
          (<["HEALTH_PORT" := "9090"]>
             (<["MONITOR_TARGETS" := "10.0.0.1"]> ∅)))).

(** Every character of [s] passes the test [P]. *)
Fixpoint all_chars (P : ascii -> bool) (s : string) : bool :=
  match s with
  | EmptyString => true
  | String c r => P c && all_chars P r
  end.

(** A decimal digit. *)
Definition is_digit (c : ascii) : bool :=
  match PyStr.digit_of c with Some _ => true | None => false end.


(** An environment in which a termination signal arrives during the sleep
    number [k]. *)
Definition signal_env (k : nat) : Env :=
  {| clock := fun n => inject_Z (Z.of_nat n);
     list_metrics := None;
     connect_ex := fun _ _ _ => inr 0;
     put_metric_data := fun _ _ _ => None;
     signal_in_sleep := fun n => if (n =? k)%nat then Some 15 else None |}.

(** A running monitor with the given interval and timeout. *)
Definition tuned_state (interval timeout : Z) (targets : list string) : St :=
  {| world := world0;
     self := {| config :=
                  {| aws_access_key_id := Some "AKIAEXAMPLE";
                     aws_secret_access_key := Some "secret";
                     aws_region := "us-east-1"; container_name := "box";
                     heartbeat_interval := interval;
                     cloudwatch_namespace := "ContainerMonitoring/Heartbeat";
                     monitor_targets := targets; target_port := 80;
                     target_timeout := timeout;
                     enable_health_endpoint := true; health_port := 8080 |};
                running := true; start_time := 0;
                last_heartbeat := None; target_status := ∅ |} |}.

(** The state after one iteration of the loop of [run] whose sleep returns:
    the sleep, the heartbeat and the sweep. *)
Definition after_tick (env : Env) (s : St) : St :=
  fst ((time_sleep env (heartbeat_interval (config (self s))) >>
        send_heartbeat env >>
        (if truthy_list (monitor_targets (config (self s)))
         then send_target_metrics env else ret tt)) s).

(** The state after [n] such iterations. *)
Fixpoint ticks (env : Env) (n : nat) (s : St) : St :=
  match n with
  | O => s
  | S n' => ticks env n' (after_tick env s)
  end.


(** Every call of the sink so far used the configured namespace and carried
    between 1 and 20 points. *)
Definition sink_inv (cfg : Config) (s : St) : Prop :=
  config (self s) = cfg
  /\ Forall (fun call => call.1 = cloudwatch_namespace cfg
                         /\ (1 <= length call.2 <= 20)%nat)
       (sink_calls (world s)).

(** The address that the health check asks, for a port. *)
Definition health_url (port : Z) : string :=
  "http://localhost:" ++ pretty port ++ "/health".

(** The health check passes by the endpoint: the answer has status 200 and
    is a dictionary whose "status" is the string "healthy". *)
Definition answers_healthy (cenv : CheckEnv) (port : Z) : Prop :=
  exists response fields,
    requests_get cenv (health_url port) = inr response
    /\ status_code response = 200
    /\ response_json response = inr (JObj fields)
    /\ is_healthy (snd <$> List.find (fun kv => String.eqb kv.1 "status") fields) = true.

(** A health check beside a monitor in state [s]: every request is answered
    with status 200 and the document of [health]. *)
Definition served_by (env : Env) (s : St) : CheckEnv :=
  {| requests_get := fun _ =>
       match snd (health env s) with
       | Return doc => inr {| status_code := 200; response_json := inr (jsonify doc) |}
       | _ => inl (RequestException "connection refused")
       end;
     import_monitor := Imported |}.

(** A monitor built from [environ_endpoint] whose flag is cleared. *)
Definition stopped_endpoint_state : St :=
  set_self (set_running false) (built environ_endpoint).

(** What every point of a sweep looks like: the time of the sweep, the name
    of the container, one of the targets, the port as [int] reads it back,
    and either a status of 0 or 1 counted, or a response time in
    milliseconds. *)
Definition sweep_point_ok (cfg : Config) (ct : Q) (targets : list string)
    (p : MetricPoint) : Prop :=
  Timestamp p = ct
  /\ (exists t d,
        t ∈ targets
        /\ Dimensions p = [("ContainerName", container_name cfg); ("TargetIP", t);
                           ("TargetPort", d)]
        /\ PyStr.parse_int d = Some (target_port cfg))
  /\ ((MetricName p = "TargetStatus" /\ Unit_ p = Count
       /\ (Value p = 0%Q \/ Value p = 1%Q))
      \/ (MetricName p = "TargetResponseTime" /\ Unit_ p = Milliseconds)).

(** The same monitor with its flag set. *)
Definition running_endpoint_state : St :=
  set_self (set_running true) (built environ_endpoint).

(** * Properties *)

(** ** Parsing the target list *)

Section ParseTargets.

Import PyStr.

Lemma split_no_sep sep f : contains sep f = false -> split sep f = [f].
Proof.
  induction f as [|c f IH]; simpl; [done|].
  intros [Hc Hf]%orb_false_elim. rewrite Hc, (IH Hf). done.
Qed.

Lemma split_field_sep sep f rest :
  contains sep f = false ->
  split sep (f ++ String sep rest) = f :: split sep rest.
Proof.
  induction f as [|c f IH]; simpl.
  - intros _. by rewrite Ascii.eqb_refl.
  - intros [Hc Hf]%orb_false_elim. rewrite Hc, (IH Hf). done.
Qed.

(** Splitting undoes joining when no field holds the separator. *)
Lemma split_join sep fields :
  fields <> [] ->
  Forall (fun f => contains sep f = false) fields ->
  split sep (join sep fields) = fields.
Proof.
  induction fields as [|f fs IH]; [done|].
  intros _ Hall. apply Forall_cons in Hall as [Hf Hfs].
  destruct fs as [|g gs].
  - simpl. by apply split_no_sep.
  - change (join sep (f :: g :: gs)) with (f ++ String sep (join sep (g :: gs))).
    rewrite split_field_sep by done. f_equal. by apply IH.
Qed.

Lemma join_empty sep fields :
  join sep fields = "" -> fields = [] \/ fields = [""].
Proof.
  destruct fields as [|f [|g gs]]; simpl; [by left| |].
  - intros ->. by right.
  - destruct f; discriminate.
Qed.

Lemma parse_targets_join fields :
  Forall (fun f => contains "," f = false) fields ->
  _parse_targets (join "," fields)
  = List.map strip (List.filter (fun f => truthy (strip f)) fields).
Proof.
  intros Hall. unfold _parse_targets.
  destruct (truthy (join "," fields)) eqn:Ht; simpl.
  - rewrite split_join; [done| |done].
    intros ->. discriminate.
  - assert (Hj : join "," fields = "") by (destruct (join "," fields); done).
    by destruct (join_empty _ _ Hj) as [-> | ->].
Qed.

Lemma count_occ_stripped (h : string) fields :
  truthy h = true ->
  count_occ string_dec
    (List.map strip (List.filter (fun f => truthy (strip f)) fields)) h
  = length (List.filter (fun f => String.eqb (strip f) h) fields).
Proof.
  intros Hh. induction fields as [|f fs IH]; [done|]. simpl.
  destruct (String.eqb_spec (strip f) h) as [Heq | Hne].
  - rewrite Heq, Hh. simpl. rewrite Heq.
    destruct (string_dec h h); [|done]. simpl. by rewrite IH.
  - destruct (truthy (strip f)); simpl; [|done].
    destruct (string_dec (strip f) h); [done|]. done.
Qed.

End ParseTargets.

(** C5 (as the code has it). When the input is the comma-joined list
    [fields], the parsed targets are the stripped fields that are not blank,
    in the order of the input and one entry per occurrence: a host written k
    times is k times in the list. *)
Theorem parse_targets_keeps_every_occurrence (fields : list string) :
  Forall (fun f => PyStr.contains "," f = false) fields ->
  _parse_targets (PyStr.join "," fields)
  = List.map PyStr.strip (List.filter (fun f => PyStr.truthy (PyStr.strip f)) fields)
  /\ forall h, PyStr.truthy h = true ->
       count_occ string_dec (_parse_targets (PyStr.join "," fields)) h
       = length (List.filter (fun f => String.eqb (PyStr.strip f) h) fields).
Proof.
  intros Hall. split; [by apply parse_targets_join|].
  intros h Hh. rewrite parse_targets_join by done. by apply count_occ_stripped.
Qed.

Lemma parse_targets_keeps_every_occurrence_witness :
  _parse_targets "10.0.0.1, web ,,10.0.0.1" = ["10.0.0.1"; "web"; "10.0.0.1"]
  /\ count_occ string_dec (_parse_targets "10.0.0.1, web ,,10.0.0.1") "10.0.0.1" = 2%nat.
Proof.
  assert (Hall : Forall (fun f => PyStr.contains "," f = false)
                   ["10.0.0.1"; " web "; ""; "10.0.0.1"]).
  { repeat constructor. }
  destruct (parse_targets_keeps_every_occurrence _ Hall) as [H1 H2].
  split; [exact H1 | exact (H2 "10.0.0.1" eq_refl)].
Defined.

(** C5 (as stated) fails: a host given twice is twice in the target list. *)
Lemma parse_targets_repeats_host :
  _parse_targets "10.0.0.1,10.0.0.1" = ["10.0.0.1"; "10.0.0.1"]
  /\ ~ NoDup (_parse_targets "10.0.0.1,10.0.0.1").
Proof.
  split; [reflexivity|].
  intros Hnd. change (NoDup ["10.0.0.1"; "10.0.0.1"]) in Hnd.
  apply NoDup_cons in Hnd as [Hnotin _]. apply Hnotin. by left.
Qed.

(** ** Loading the configuration *)

(** C6 (as the code has it). [_load_config] accepts an environment exactly
    when its four integer settings parse and both credentials are non-empty;
    the accepted configuration carries the parsed interval and timeout as
    they are, whatever their sign. An environment that is not accepted ends
    the process, by the [ValueError] of [int] or by [sys.exit(1)], before
    anything else is done: no clock reading, no sink call, no sleep. *)
Theorem load_config_accepts_any_integer
    (environ : gmap string string) (hostname : string) :
  (forall cfg,
      _load_config environ hostname = Return cfg
      <-> exists interval port timeout hport,
            config_accepted environ interval port timeout hport
            /\ cfg = config_of environ hostname interval port timeout hport)
  /\ ((forall cfg, _load_config environ hostname <> Return cfg) ->
      forall env fuel,
        main env environ hostname fuel = (world0, SysExit 1)
        \/ exists v, main env environ hostname fuel = (world0, Raise (ValueError v))).
Proof.
  split.
  - intros cfg. unfold _load_config, config_accepted, py_int. split.
    + destruct (PyStr.parse_int (getenv_default environ "HEARTBEAT_INTERVAL" "300"))
        as [i|]; [|discriminate].
      destruct (PyStr.parse_int (getenv_default environ "TARGET_PORT" "80"))
        as [p|]; [|discriminate].
      destruct (PyStr.parse_int (getenv_default environ "TARGET_TIMEOUT" "5"))
        as [t|]; [|discriminate].
      destruct (PyStr.parse_int (getenv_default environ "HEALTH_PORT" "8080"))
        as [hp|]; [|discriminate].
      cbn [rbind aws_access_key_id aws_secret_access_key].
      destruct (truthy_opt (getenv environ "AWS_ACCESS_KEY_ID")); [|discriminate].
      destruct (truthy_opt (getenv environ "AWS_SECRET_ACCESS_KEY")); [|discriminate].
      cbn [negb orb]. intros [= <-]. by exists i, p, t, hp.
    + intros (i & p & t & hp & (Hi & Hp & Ht & Hhp & Hk & Hs) & ->).
      rewrite Hi, Hp, Ht, Hhp.
      cbn [rbind aws_access_key_id aws_secret_access_key].
      by rewrite Hk, Hs.
  - intros Hrej env fuel. unfold main, __init__.
    destruct (_load_config environ hostname) as [cfg|e|c] eqn:Hload.
    + by destruct (Hrej cfg).
    + right. revert Hload. unfold _load_config, py_int.
      repeat (match goal with
              | |- context [PyStr.parse_int ?x] => destruct (PyStr.parse_int x)
              end; cbn [rbind]);
        try (intros [= <-]; by eexists);
        try (destruct (_ || _); discriminate).
    + left. revert Hload. unfold _load_config, py_int.
      repeat (match goal with
              | |- context [PyStr.parse_int ?x] => destruct (PyStr.parse_int x)
              end; cbn [rbind]);
        try discriminate.
      destruct (_ || _); [|discriminate]. by intros [= <-].
Qed.

Lemma load_config_accepts_any_integer_witness :
  _load_config environ_nonpositive "host"
  = Return (config_of environ_nonpositive "host" 0 80 (-1) 8080).
Proof.
  apply (proj1 (load_config_accepts_any_integer environ_nonpositive "host")).
  exists 0, 80, (-1), 8080. split; [|reflexivity].
  repeat split; vm_compute; reflexivity.
Defined.

(** C6 (as stated) fails: an interval of 0 and a timeout of -1 are accepted,
    and the process goes on into its loop with them. *)
Lemma load_config_accepts_zero_interval :
  (exists cfg, _load_config environ_nonpositive "host" = Return cfg
               /\ heartbeat_interval cfg = 0 /\ target_timeout cfg = -1)
  /\ snd (main quiet_env environ_nonpositive "host" 3) = Return OutOfFuel
  /\ sleeps (fst (main quiet_env environ_nonpositive "host" 3)) = 3%nat.
Proof.
  split; [|split; vm_compute; reflexivity].
  eexists. split; [vm_compute; reflexivity|]. split; reflexivity.
Qed.

(** ** The heartbeat *)

Lemma send_heartbeat_raised env s e :
  heartbeat_sink_answer env s = Some e ->
  send_heartbeat env s
  = (set_world (log_sink_call (cloudwatch_namespace (config (self s)))
                  (heartbeat_metrics (config (self s))
                     (clock env (clock_reads (world s)))
                     (clock env (S (clock_reads (world s))) - start_time (self s))%Q))
       (set_world tick_clock (set_world tick_clock s)),
     Return tt).
Proof.
  unfold heartbeat_sink_answer. intros H.
  unfold send_heartbeat, try_except, bind, datetime_now, time_time, gets,
    cloudwatch_put_metric_data. cbn. by rewrite H.
Qed.

Lemma send_heartbeat_accepted env s :
  heartbeat_sink_answer env s = None ->
  send_heartbeat env s
  = (set_self (set_last_heartbeat (clock env (clock_reads (world s))))
       (set_world (log_sink_call (cloudwatch_namespace (config (self s)))
                  (heartbeat_metrics (config (self s))
                     (clock env (clock_reads (world s)))
                     (clock env (S (clock_reads (world s))) - start_time (self s))%Q))
          (set_world tick_clock (set_world tick_clock s))),
     Return tt).
Proof.
  unfold heartbeat_sink_answer. intros H.
  unfold send_heartbeat, try_except, bind, datetime_now, time_time, gets,
    cloudwatch_put_metric_data. cbn. by rewrite H.
Qed.

(** The heartbeat never raises and touches neither the flag, the
    configuration nor the target statuses. *)
Lemma send_heartbeat_returns env s :
  snd (send_heartbeat env s) = Return tt
  /\ running (self (fst (send_heartbeat env s))) = running (self s)
  /\ config (self (fst (send_heartbeat env s))) = config (self s)
  /\ target_status (self (fst (send_heartbeat env s))) = target_status (self s)
  /\ status_writes (world (fst (send_heartbeat env s))) = status_writes (world s)
  /\ sleeps (world (fst (send_heartbeat env s))) = sleeps (world s).
Proof.
  destruct (heartbeat_sink_answer env s) as [e|] eqn:H.
  - by rewrite (send_heartbeat_raised _ _ _ H).
  - by rewrite (send_heartbeat_accepted _ _ H).
Qed.

(** C10. A heartbeat whose sink call raises leaves [last_heartbeat] as it
    was; one whose sink call returns sets it to the time read at the start
    of the attempt. Either way the heartbeat itself returns. *)
Theorem heartbeat_failure_keeps_last_heartbeat (env : Env) (s : St) :
  snd (send_heartbeat env s) = Return tt
  /\ (forall e, heartbeat_sink_answer env s = Some e ->
        last_heartbeat (self (fst (send_heartbeat env s))) = last_heartbeat (self s))
  /\ (heartbeat_sink_answer env s = None ->
        last_heartbeat (self (fst (send_heartbeat env s)))
        = Some (clock env (clock_reads (world s)))).
Proof.
  split; [apply send_heartbeat_returns|]. split.
  - intros e H. by rewrite (send_heartbeat_raised _ _ _ H).
  - intros H. by rewrite (send_heartbeat_accepted _ _ H).
Qed.

Lemma heartbeat_failure_keeps_last_heartbeat_witness :
  last_heartbeat (self (fst (send_heartbeat failing_sink_env (beating_state []))))
  = Some (7 # 1)%Q
  /\ last_heartbeat (self (fst (send_heartbeat quiet_env (beating_state []))))
     = Some (0 # 1)%Q.
Proof.
  split.
  - exact (proj1 (proj2 (heartbeat_failure_keeps_last_heartbeat
                           failing_sink_env (beating_state [])))
             (ClientError "Throttling") eq_refl).
  - exact (proj2 (proj2 (heartbeat_failure_keeps_last_heartbeat
                           quiet_env (beating_state []))) eq_refl).
Defined.

(** ** The connectivity probe *)

Lemma check_target_connectivity_eq env target s :
  check_target_connectivity env target s
  = (after_probe s, Return (connection_made env s target, probe_elapsed env s)).
Proof.
  unfold check_target_connectivity, try_except, bind, time_time, gets,
    socket_connect, connection_made, probe_elapsed, after_probe.
  cbn. destruct (target_timeout (config (self s)) <? 0); cbn; [done|].
  destruct (connect_ex env _ target _) as [e|code]; cbn; done.
Qed.




(** ** Ranges and batches *)

Section Ranges.

Lemma range_from_shift fuel i stop step d :
  range_from fuel (i + d) (stop + d) step
  = List.map (fun x => x + d)%nat (range_from fuel i stop step).
Proof.
  revert i. induction fuel as [|fuel IH]; intros i; [done|]. simpl.
  replace (i + d <? stop + d)%nat with (i <? stop)%nat.
  2:{ destruct (Nat.ltb_spec i stop), (Nat.ltb_spec (i + d) (stop + d)); lia. }
  destruct (i <? stop)%nat; [|done]. simpl. f_equal.
  replace (i + d + step)%nat with (i + step + d)%nat by lia. apply IH.
Qed.

(** Any fuel that covers the distance to [stop] gives the same range. *)
Lemma range_from_fuel fuel fuel' i stop step :
  (0 < step)%nat -> (stop - i <= fuel)%nat -> (stop - i <= fuel')%nat ->
  range_from fuel i stop step = range_from fuel' i stop step.
Proof.
  intros Hstep. revert fuel' i.
  induction fuel as [|fuel IH]; intros fuel' i Hf Hf'.
  - destruct fuel' as [|fuel']; [done|]. simpl.
    destruct (Nat.ltb_spec i stop); [lia|done].
  - simpl. destruct (Nat.ltb_spec i stop) as [Hlt|Hge].
    + destruct fuel' as [|fuel']; [lia|]. simpl.
      destruct (Nat.ltb_spec i stop); [|lia]. f_equal. apply IH; lia.
    + destruct fuel' as [|fuel']; [done|]. simpl.
      destruct (Nat.ltb_spec i stop); [lia|done].
Qed.

Lemma range_step n :
  (0 < n)%nat ->
  range 0 n 20 = 0%nat :: List.map (fun x => x + 20)%nat (range 0 (n - 20) 20).
Proof.
  intros Hn. unfold range. rewrite !Nat.sub_0_r.
  destruct n as [|n]; [lia|]. cbn [range_from].
  rewrite (proj2 (Nat.ltb_lt 0 (S n))) by lia. f_equal.
  destruct (Nat.le_gt_cases 20 (S n)) as [Hge|Hlt].
  - rewrite <- range_from_shift.
    replace (S n - 20 + 20)%nat with (S n) by lia.
    apply range_from_fuel; lia.
  - replace (S n - 20)%nat with 0%nat by lia. cbn [range_from List.map].
    destruct n as [|n]; [done|]. cbn [range_from].
    destruct (Nat.ltb_spec (0 + 20) (S (S n))); [lia|done].
Qed.

Lemma ceil_div_step n :
  (0 < n)%nat -> ceil_div n 20 = S (ceil_div (n - 20) 20).
Proof.
  intros Hn. unfold ceil_div.
  pose proof (Nat.div_mod_eq (n + 20 - 1) 20) as H1.
  pose proof (Nat.mod_upper_bound (n + 20 - 1) 20 ltac:(lia)) as H2.
  pose proof (Nat.div_mod_eq (n - 20 + 20 - 1) 20) as H3.
  pose proof (Nat.mod_upper_bound (n - 20 + 20 - 1) 20 ltac:(lia)) as H4.
  lia.
Qed.

(** [ceil_div n 20] is the least number of twenties that cover [n]. *)
Lemma ceil_div_bounds n :
  (n <= 20 * ceil_div n 20)%nat /\ (20 * ceil_div n 20 < n + 20)%nat.
Proof.
  unfold ceil_div.
  pose proof (Nat.div_mod_eq (n + 20 - 1) 20) as H1.
  pose proof (Nat.mod_upper_bound (n + 20 - 1) 20 ltac:(lia)) as H2.
  lia.
Qed.

End Ranges.

Lemma batches_nil : batches [] = [].
Proof. reflexivity. Qed.

(** The first batch is the first twenty points; the others are the batches
    of the rest. *)
Lemma batches_step (metrics : list MetricPoint) :
  metrics <> [] ->
  batches metrics = take 20 metrics :: batches (drop 20 metrics).
Proof.
  intros Hne. unfold batches.
  rewrite range_step by (destruct metrics; [done | simpl; lia]).
  cbn [List.map]. f_equal.
  rewrite List.map_map, length_drop. apply List.map_ext. intros i.
  unfold slice. rewrite drop_drop.
  replace (i + 20 + 20 - (i + 20))%nat with (i + 20 - i)%nat by lia.
  f_equal. f_equal. lia.
Qed.

(** Induction over a list twenty elements at a time. *)
Lemma by_twenties (P : list MetricPoint -> Prop) :
  P [] ->
  (forall metrics, metrics <> [] -> P (drop 20 metrics) -> P metrics) ->
  forall metrics, P metrics.
Proof.
  intros Hnil Hstep metrics.
  remember (length metrics) as n eqn:Hn. revert metrics Hn.
  induction n as [n IH] using lt_wf_ind. intros metrics Hn.
  destruct metrics as [|x xs]; [done|].
  apply Hstep; [done|].
  apply (IH (length (drop 20 (x :: xs)))); [|done].
  rewrite length_drop. subst n. simpl. lia.
Qed.

Lemma batches_length metrics : length (batches metrics) = ceil_div (length metrics) 20.
Proof.
  induction metrics as [|metrics Hne IH] using by_twenties; [done|].
  rewrite batches_step by done. simpl. rewrite IH, length_drop.
  symmetry. apply ceil_div_step. destruct metrics; [done|simpl; lia].
Qed.

Lemma batches_bounded metrics :
  Forall (fun b => (0 < length b <= 20)%nat) (batches metrics).
Proof.
  induction metrics as [|metrics Hne IH] using by_twenties; [constructor|].
  rewrite batches_step by done. constructor; [|done].
  rewrite length_take.
  assert (0 < length metrics)%nat by (destruct metrics; [done|simpl; lia]). lia.
Qed.

Lemma batches_concat metrics : concat (batches metrics) = metrics.
Proof.
  induction metrics as [|metrics Hne IH] using by_twenties; [done|].
  rewrite batches_step by done. simpl. rewrite IH. apply take_drop.
Qed.

(** ** Submitting the batches *)

Lemma for_each_put env ns (f : nat -> list MetricPoint) (idx : list nat) s :
  for_each idx (fun i => cloudwatch_put_metric_data env ns (f i)) s
  = (log_sink_calls ns
       (fst (attempted env (length (sink_calls (world s))) ns (List.map f idx))) s,
     answer_of (snd (attempted env (length (sink_calls (world s))) ns (List.map f idx)))).
Proof.
  revert s. induction idx as [|i idx IH]; intros s; [done|].
  cbn [for_each List.map attempted]. unfold bind at 1.
  unfold cloudwatch_put_metric_data at 1.
  destruct (put_metric_data env (length (sink_calls (world s))) ns (f i)) as [e|]; [done|].
  rewrite IH. cbn [fst snd world set_world log_sink_call sink_calls].
  rewrite length_app. cbn [length]. rewrite Nat.add_1_r. done.
Qed.

Lemma send_batches_eq env ns metrics s :
  send_batches env ns metrics s
  = (log_sink_calls ns
       (fst (attempted env (length (sink_calls (world s))) ns (batches metrics))) s,
     answer_of (snd (attempted env (length (sink_calls (world s))) ns (batches metrics)))).
Proof. unfold send_batches. by rewrite for_each_put. Qed.

Lemma log_sink_calls_self ns calls s : self (log_sink_calls ns calls s) = self s.
Proof.
  revert s. induction calls as [|b calls IH]; intros s; [done|].
  change (log_sink_calls ns (b :: calls) s)
    with (log_sink_calls ns calls (set_world (log_sink_call ns b) s)).
  by rewrite IH.
Qed.

Lemma log_sink_calls_sink ns calls s :
  sink_calls (world (log_sink_calls ns calls s))
  = (sink_calls (world s) ++ List.map (pair ns) calls)%list.
Proof.
  revert s. induction calls as [|b calls IH]; intros s.
  - simpl. by rewrite app_nil_r.
  - change (log_sink_calls ns (b :: calls) s)
      with (log_sink_calls ns calls (set_world (log_sink_call ns b) s)).
    rewrite IH. simpl. by rewrite <- app_assoc.
Qed.

Lemma log_sink_calls_frame ns calls s :
  status_writes (world (log_sink_calls ns calls s)) = status_writes (world s)
  /\ sleeps (world (log_sink_calls ns calls s)) = sleeps (world s)
  /\ clock_reads (world (log_sink_calls ns calls s)) = clock_reads (world s)
  /\ connects (world (log_sink_calls ns calls s)) = connects (world s).
Proof.
  revert s. induction calls as [|b calls IH]; intros s; [done|].
  change (log_sink_calls ns (b :: calls) s)
    with (log_sink_calls ns calls (set_world (log_sink_call ns b) s)).
  destruct (IH (set_world (log_sink_call ns b) s)) as (-> & -> & -> & ->). done.
Qed.

(** When no call raises, every batch is attempted. *)
Lemma attempted_all env ns bs n :
  (forall j b, bs !! j = Some b -> put_metric_data env (n + j) ns b = None) ->
  attempted env n ns bs = (bs, None).
Proof.
  revert n. induction bs as [|b bs IH]; intros n Hok; [done|]. simpl.
  rewrite <- (Nat.add_0_r n) at 1. rewrite (Hok 0%nat b eq_refl).
  rewrite IH; [done|]. intros j b' Hj.
  replace (S n + j)%nat with (n + S j)%nat by lia. by apply Hok.
Qed.

(** When call [k] is the first to raise, the calls attempted are the batches
    up to [k], and no later one. *)
Lemma attempted_until env ns bs n k bk e :
  bs !! k = Some bk ->
  (forall j b, (j < k)%nat -> bs !! j = Some b -> put_metric_data env (n + j) ns b = None) ->
  put_metric_data env (n + k) ns bk = Some e ->
  attempted env n ns bs = (take (S k) bs, Some e).
Proof.
  revert n k. induction bs as [|b bs IH]; intros n k Hk Hok Hfail; [done|].
  destruct k as [|k]; simpl in *.
  - injection Hk as ->. rewrite Nat.add_0_r in Hfail. rewrite Hfail.
    by rewrite take_0.
  - rewrite <- (Nat.add_0_r n) at 1. rewrite (Hok 0%nat b ltac:(lia) eq_refl).
    rewrite (IH (S n) k Hk); [done| |].
    + intros j b' Hj Hb'. replace (S n + j)%nat with (n + S j)%nat by lia.
      apply Hok; [lia|done].
    + by replace (S n + k)%nat with (n + S k)%nat by lia.
Qed.

(** ** The sweep over the targets *)

Lemma sweep_target_eq env cfg ct metrics target s :
  sweep_target env cfg ct metrics target s
  = (after_target env ct target s,
     Return (metrics ++ points_at env cfg ct target s)%list).
Proof.
  unfold sweep_target, bind. rewrite check_target_connectivity_eq.
  reflexivity.
Qed.

(** The loop over the targets runs to its end: no probe raises. *)
Lemma sweep_targets_eq env cfg ct targets metrics s :
  sweep_targets env cfg ct targets metrics s
  = (fst (swept env cfg ct targets s),
     Return (metrics ++ snd (swept env cfg ct targets s))%list).
Proof.
  revert metrics s. induction targets as [|t rest IH]; intros metrics s.
  - simpl. unfold ret. by rewrite app_nil_r.
  - cbn [sweep_targets swept fst snd]. unfold bind. rewrite sweep_target_eq.
    rewrite IH. by rewrite <- app_assoc.
Qed.

Lemma swept_points_nonempty env cfg ct targets s :
  targets <> [] -> truthy_list (snd (swept env cfg ct targets s)) = true.
Proof. destruct targets as [|t rest]; [done|]. intros _. reflexivity. Qed.

(** What a sweep leaves untouched. *)
Lemma swept_frame env cfg ct targets s :
  let s' := fst (swept env cfg ct targets s) in
  config (self s') = config (self s)
  /\ running (self s') = running (self s)
  /\ last_heartbeat (self s') = last_heartbeat (self s)
  /\ start_time (self s') = start_time (self s)
  /\ sink_calls (world s') = sink_calls (world s)
  /\ sleeps (world s') = sleeps (world s).
Proof.
  revert s. induction targets as [|t rest IH]; intros s; [done|].
  cbn [swept fst]. destruct (IH (after_target env ct t s)) as (-> & -> & -> & -> & -> & ->).
  unfold after_target, after_probe. cbn.
  by destruct (target_timeout (config (self s)) <? 0).
Qed.

Lemma send_target_metrics_none env s :
  monitor_targets (config (self s)) = [] ->
  send_target_metrics env s = (s, Return tt).
Proof. intros H. unfold send_target_metrics, bind, gets. by rewrite H. Qed.

Lemma send_target_metrics_eq env s :
  monitor_targets (config (self s)) <> [] ->
  send_target_metrics env s
  = (log_sink_calls (cloudwatch_namespace (config (self s)))
       (fst (attempted env (length (sink_calls (world s)))
               (cloudwatch_namespace (config (self s)))
               (batches (swept_metrics env s))))
       (swept_state env s),
     Return tt).
Proof.
  intros Hne. unfold send_target_metrics, bind at 1, gets at 1.
  destruct (monitor_targets (config (self s))) as [|t rest] eqn:Ht; [done|].
  cbn [truthy_list negb]. unfold try_except, bind, datetime_now, time_time.
  rewrite sweep_targets_eq. cbn [app].
  rewrite swept_points_nonempty by done. rewrite send_batches_eq.
  unfold swept_state, swept_metrics. rewrite Ht.
  destruct (swept_frame env (config (self s)) (clock env (clock_reads (world s)))
              (t :: rest) (set_world tick_clock s)) as (_ & _ & _ & _ & Hsink & _).
  cbn zeta in Hsink. rewrite Hsink. cbn [set_world world tick_clock sink_calls].
  by destruct (snd (attempted _ _ _ _)).
Qed.

(** A sweep never raises and leaves flag, configuration and heartbeat time
    alone. *)
Lemma send_target_metrics_returns env s :
  snd (send_target_metrics env s) = Return tt
  /\ running (self (fst (send_target_metrics env s))) = running (self s)
  /\ config (self (fst (send_target_metrics env s))) = config (self s)
  /\ last_heartbeat (self (fst (send_target_metrics env s))) = last_heartbeat (self s)
  /\ sleeps (world (fst (send_target_metrics env s))) = sleeps (world s).
Proof.
  destruct (monitor_targets (config (self s))) as [|t rest] eqn:Ht.
  - by rewrite send_target_metrics_none.
  - rewrite send_target_metrics_eq by (rewrite Ht; done). cbn [fst snd].
    rewrite log_sink_calls_self.
    destruct (log_sink_calls_frame (cloudwatch_namespace (config (self s)))
      (fst (attempted env (length (sink_calls (world s)))
              (cloudwatch_namespace (config (self s)))
              (batches (swept_metrics env s)))) (swept_state env s))
      as (_ & -> & _ & _).
    unfold swept_state.
    destruct (swept_frame env (config (self s)) (clock env (clock_reads (world s)))
                (monitor_targets (config (self s))) (set_world tick_clock s))
      as (-> & -> & -> & _ & _ & ->). done.
Qed.

Lemma attempted_prefix env ns bs n :
  exists k, fst (attempted env n ns bs) = take k bs.
Proof.
  revert n. induction bs as [|b bs IH]; intros n; [by exists 0%nat|]. simpl.
  destruct (put_metric_data env n ns b).
  - by exists 1%nat.
  - destruct (IH (S n)) as [k Hk]. exists (S k). simpl. by rewrite Hk.
Qed.

(** C2 (as the code has it). For every list of N metric points handed to the
    batch loop: the calls it makes are the leading batches of the list, so
    never more than ceil(N/20) calls and never more than 20 points in a call;
    and when no call raises, it makes exactly ceil(N/20) calls, which carry
    all the points in order. *)
Theorem batch_calls_when_sink_accepts
    (env : Env) (ns : string) (metrics : list MetricPoint) (s : St) :
  let s' := fst (send_batches env ns metrics s) in
  (exists calls,
      sink_calls (world s') = (sink_calls (world s) ++ List.map (pair ns) calls)%list
      /\ (length calls <= ceil_div (length metrics) 20)%nat
      /\ Forall (fun b => (length b <= 20)%nat) calls)
  /\ ((forall j b, batches metrics !! j = Some b ->
         put_metric_data env (length (sink_calls (world s)) + j) ns b = None) ->
      exists calls,
        snd (send_batches env ns metrics s) = Return tt
        /\ sink_calls (world s') = (sink_calls (world s) ++ List.map (pair ns) calls)%list
        /\ length calls = ceil_div (length metrics) 20
        /\ (length metrics <= 20 * length calls < length metrics + 20)%nat
        /\ Forall (fun b => (length b <= 20)%nat) calls
        /\ concat calls = metrics).
Proof.
  cbn zeta. rewrite send_batches_eq. cbn [fst snd]. split.
  - eexists. split; [apply log_sink_calls_sink|].
    destruct (attempted_prefix env ns (batches metrics) (length (sink_calls (world s))))
      as [k ->].
    split.
    + rewrite length_take, batches_length. lia.
    + apply Forall_take. eapply Forall_impl; [apply batches_bounded|].
      intros b Hb. simpl in Hb. lia.
  - intros Hok. exists (batches metrics).
    rewrite (attempted_all _ _ _ _ Hok). cbn [fst snd answer_of].
    split; [done|]. split; [apply log_sink_calls_sink|].
    split; [apply batches_length|]. rewrite batches_length.
    split; [apply ceil_div_bounds|]. split; [|apply batches_concat].
    eapply Forall_impl; [apply batches_bounded|]. intros b Hb. simpl in Hb. lia.
Qed.

Lemma batch_calls_when_sink_accepts_witness :
  exists calls,
    sink_calls (world (fst (send_batches quiet_env "ns" (sample_points 45)
                              (beating_state []))))
    = List.map (pair "ns") calls
    /\ length calls = 3%nat.
Proof.
  destruct (batch_calls_when_sink_accepts quiet_env "ns" (sample_points 45)
              (beating_state [])) as [_ H].
  destruct (H ltac:(reflexivity)) as (calls & _ & Hc & Hlen & _).
  exists calls. split; [exact Hc | rewrite Hlen; vm_compute; reflexivity].
Defined.

(** C2 (as stated) fails: a sweep of 21 refusing targets yields 21 points,
    ceil(21/20) is 2, and when the sink refuses the first call that call is
    the only one made. *)
Lemma one_call_for_21_points :
  length (swept_metrics (refusing_env (refuse_call 0)) (beating_state (hosts 21))) = 21%nat
  /\ ceil_div 21 20 = 2%nat
  /\ length (sink_calls (world (fst (send_target_metrics (refusing_env (refuse_call 0))
                                       (beating_state (hosts 21)))))) = 1%nat
  /\ length (sink_calls (world (fst (send_batches (refusing_env (refuse_call 0)) "ns"
                                       (sample_points 21) (beating_state []))))) = 1%nat.
Proof. split; [|split; [|split]]; vm_compute; reflexivity. Qed.

(** C1 (as the code has it). In a sweep over a non-empty target list, when
    the sink call for batch [k] is the first to raise, the sink has been
    called for the batches up to [k] and for no later batch of that sweep;
    the exception is caught where the sweep ends, so [send_target_metrics]
    returns, with the running flag as it was. *)
Theorem batch_failure_ends_submission
    (env : Env) (s : St) (k : nat) (bk : list MetricPoint) (e : exn) :
  let ns := cloudwatch_namespace (config (self s)) in
  let bs := batches (swept_metrics env s) in
  let base := length (sink_calls (world s)) in
  monitor_targets (config (self s)) <> [] ->
  bs !! k = Some bk ->
  (forall j b, (j < k)%nat -> bs !! j = Some b ->
               put_metric_data env (base + j) ns b = None) ->
  put_metric_data env (base + k) ns bk = Some e ->
  send_batches env ns (swept_metrics env s) (swept_state env s)
  = (log_sink_calls ns (take (S k) bs) (swept_state env s), Raise e)
  /\ snd (send_target_metrics env s) = Return tt
  /\ sink_calls (world (fst (send_target_metrics env s)))
     = (sink_calls (world s) ++ List.map (pair ns) (take (S k) bs))%list
  /\ running (self (fst (send_target_metrics env s))) = running (self s).
Proof.
  cbn zeta. intros Hne Hk Hok Hfail.
  assert (Hbase : sink_calls (world (swept_state env s)) = sink_calls (world s)).
  { unfold swept_state.
    destruct (swept_frame env (config (self s)) (clock env (clock_reads (world s)))
                (monitor_targets (config (self s))) (set_world tick_clock s))
      as (_ & _ & _ & _ & -> & _). done. }
  split; [|split; [apply send_target_metrics_returns|split;
                   [|apply send_target_metrics_returns]]].
  - rewrite send_batches_eq, Hbase.
    by rewrite (attempted_until _ _ _ _ _ _ _ Hk Hok Hfail).
  - rewrite send_target_metrics_eq by done. cbn [fst].
    rewrite (attempted_until _ _ _ _ _ _ _ Hk Hok Hfail). cbn [fst].
    by rewrite log_sink_calls_sink, Hbase.
Qed.

Lemma batch_failure_ends_submission_witness :
  length (batches (swept_metrics (refusing_env (refuse_call 1)) (beating_state (hosts 45))))
  = 3%nat
  /\ length (sink_calls (world (fst (send_target_metrics (refusing_env (refuse_call 1))
                                       (beating_state (hosts 45)))))) = 2%nat.
Proof.
  split; [vm_compute; reflexivity|].
  assert (Hk : batches (swept_metrics (refusing_env (refuse_call 1))
                          (beating_state (hosts 45))) !! 1%nat
               = Some (slice 20 40 (swept_metrics (refusing_env (refuse_call 1))
                                      (beating_state (hosts 45)))))
    by (vm_compute; reflexivity).
  assert (Hok : forall j b, (j < 1)%nat ->
            batches (swept_metrics (refusing_env (refuse_call 1))
                       (beating_state (hosts 45))) !! j = Some b ->
            put_metric_data (refusing_env (refuse_call 1))
              (length (sink_calls (world (beating_state (hosts 45)))) + j)
              (cloudwatch_namespace (config (self (beating_state (hosts 45))))) b
            = None).
  { intros j b Hj _. destruct j; [reflexivity|lia]. }
  assert (Hfail : put_metric_data (refusing_env (refuse_call 1))
            (length (sink_calls (world (beating_state (hosts 45)))) + 1)
            (cloudwatch_namespace (config (self (beating_state (hosts 45)))))
            (slice 20 40 (swept_metrics (refusing_env (refuse_call 1))
                            (beating_state (hosts 45))))
          = Some (ClientError "Throttling")) by reflexivity.
  assert (Hne : monitor_targets (config (self (beating_state (hosts 45)))) <> [])
    by discriminate.
  destruct (batch_failure_ends_submission _ _ 1%nat _ _ Hne Hk Hok Hfail)
    as (_ & _ & Hcalls & _).
  rewrite Hcalls. vm_compute. reflexivity.
Defined.

(** C1 (as stated) fails: a sweep of 45 refusing targets has three batches;
    when the sink refuses the second call, the third batch is never
    submitted, although the sink would have taken it. *)
Lemma third_batch_not_attempted :
  length (batches (swept_metrics (refusing_env (refuse_call 1)) (beating_state (hosts 45))))
  = 3%nat
  /\ length (sink_calls (world (fst (send_target_metrics (refusing_env (refuse_call 1))
                                       (beating_state (hosts 45)))))) = 2%nat
  /\ length (sink_calls (world (fst (send_target_metrics (refusing_env (fun _ => None))
                                       (beating_state (hosts 45)))))) = 3%nat.
Proof. split; [|split]; vm_compute; reflexivity. Qed.

(** ** The shared status mapping during a sweep *)

Lemma swept_status_writes env cfg ct targets s :
  status_writes (world (fst (swept env cfg ct targets s)))
  = (rev (sweep_writes env ct targets s) ++ status_writes (world s))%list.
Proof.
  revert s. induction targets as [|t rest IH]; intros s; [done|].
  cbn [swept fst sweep_writes rev]. rewrite IH, <- app_assoc.
  f_equal. unfold after_target, after_probe. cbn.
  by destruct (target_timeout (config (self s)) <? 0).
Qed.

Lemma after_target_status env ct t s :
  target_status (self (after_target env ct t s))
  = <[t := entry_at env ct t s]> (target_status (self s)).
Proof.
  unfold after_target, after_probe. cbn.
  by destruct (target_timeout (config (self s)) <? 0).
Qed.

Lemma sweep_writes_length env ct targets s :
  length (sweep_writes env ct targets s) = length targets.
Proof.
  revert s. induction targets as [|t rest IH]; intros s; [done|].
  simpl. by rewrite IH.
Qed.

(** After [k+1] stores the first [k+1] targets have an entry of this sweep
    and every other key has what it had before the sweep. *)
Lemma sweep_writes_lookup env ct targets s k ts :
  sweep_writes env ct targets s !! k = Some ts ->
  (forall t, t ∈ take (S k) targets ->
     exists e, ts !! t = Some e /\ last_check e = isoformat ct)
  /\ (forall t, t ∉ take (S k) targets -> ts !! t = target_status (self s) !! t).
Proof.
  revert s k ts. induction targets as [|t0 rest IH]; intros s k ts Hk; [done|].
  destruct k as [|k]; cbn [sweep_writes] in Hk.
  - change (Some (target_status (self (after_target env ct t0 s))) = Some ts) in Hk.
    assert (ts = target_status (self (after_target env ct t0 s))) as -> by congruence.
    rewrite after_target_status. cbn [take]. split.
    + intros t Ht. apply list_elem_of_singleton in Ht as ->.
      rewrite lookup_insert_eq. by eexists.
    + intros t Ht. rewrite lookup_insert_ne; [done|].
      intros ->. apply Ht. by apply list_elem_of_singleton.
  - change (sweep_writes env ct rest (after_target env ct t0 s) !! k = Some ts) in Hk.
    apply IH in Hk as [Hin Hout]. change (take (S (S k)) (t0 :: rest))
      with (t0 :: take (S k) rest). split.
    + intros t Ht. destruct (decide (t ∈ take (S k) rest)) as [Hr|Hr].
      * by apply Hin.
      * apply elem_of_cons in Ht as [->|Ht]; [|done].
        rewrite (Hout _ Hr), after_target_status, lookup_insert_eq. by eexists.
    + intros t Ht. apply not_elem_of_cons in Ht as [Hne Hr].
      rewrite (Hout _ Hr), after_target_status. by rewrite lookup_insert_ne.
Qed.

Lemma last_cons_default {A} (x : A) (l : list A) (d : A) :
  List.last (x :: l) d = List.last l x.
Proof.
  revert x d. induction l as [|y l IH]; intros x d; [done|].
  change (List.last (x :: y :: l) d) with (List.last (y :: l) d).
  rewrite IH. symmetry. apply IH.
Qed.

Lemma swept_target_status env cfg ct targets s :
  target_status (self (fst (swept env cfg ct targets s)))
  = List.last (sweep_writes env ct targets s) (target_status (self s)).
Proof.
  revert s. induction targets as [|t rest IH]; intros s; [done|].
  cbn [swept fst sweep_writes]. by rewrite IH, last_cons_default.
Qed.

Lemma sweep_writes_dom env ct targets s (T : gset string) :
  dom (target_status (self s)) ⊆ T ->
  list_to_set targets ⊆ T ->
  Forall (fun ts => dom ts ⊆ T) (sweep_writes env ct targets s).
Proof.
  revert s. induction targets as [|t rest IH]; intros s Hs HT; [constructor|].
  cbn [sweep_writes]. rewrite list_to_set_cons in HT.
  assert (Hd : dom (target_status (self (after_target env ct t s))) ⊆ T).
  { rewrite after_target_status, dom_insert_L. set_solver. }
  constructor; [done|]. apply IH; [done|set_solver].
Qed.

Lemma swept_dom env cfg ct targets s :
  dom (target_status (self (fst (swept env cfg ct targets s))))
  = dom (target_status (self s)) ∪ list_to_set targets.
Proof.
  revert s. induction targets as [|t rest IH]; intros s.
  - simpl. set_solver.
  - cbn [swept fst]. rewrite IH, after_target_status, dom_insert_L,
      list_to_set_cons. set_solver.
Qed.

(** The target statuses and the stores of a whole call of
    [send_target_metrics]. *)
Lemma send_target_metrics_status env s :
  let ct := clock env (clock_reads (world s)) in
  let targets := monitor_targets (config (self s)) in
  let s' := fst (send_target_metrics env s) in
  status_writes (world s')
  = (rev (sweep_writes env ct targets (set_world tick_clock s))
     ++ status_writes (world s))%list
  /\ target_status (self s')
     = List.last (sweep_writes env ct targets (set_world tick_clock s))
         (target_status (self s))
  /\ dom (target_status (self s'))
     = dom (target_status (self s)) ∪ list_to_set targets.
Proof.
  cbn zeta. destruct (monitor_targets (config (self s))) as [|t rest] eqn:Ht.
  - rewrite send_target_metrics_none by done. simpl. split; [done|]. split; [done|].
    set_solver.
  - rewrite send_target_metrics_eq by (rewrite Ht; done). cbn [fst].
    rewrite log_sink_calls_self.
    destruct (log_sink_calls_frame (cloudwatch_namespace (config (self s)))
      (fst (attempted env (length (sink_calls (world s)))
              (cloudwatch_namespace (config (self s)))
              (batches (swept_metrics env s)))) (swept_state env s))
      as (-> & _).
    unfold swept_state. rewrite Ht.
    rewrite swept_dom, swept_status_writes, swept_target_status. done.
Qed.

(** ** Properties kept by every step *)

Section Preserves.

Context (P : St -> Prop).

Lemma preserves_ret {A} (a : A) : preserves P (ret a).
Proof. by intros s. Qed.

Lemma preserves_gets {A} (f : St -> A) : preserves P (gets f).
Proof. by intros s. Qed.

Lemma preserves_bind {A B} (m : M St A) (k : A -> M St B) :
  preserves P m -> (forall a, preserves P (k a)) -> preserves P (bind m k).
Proof.
  intros Hm Hk s Hs. unfold bind. specialize (Hm s Hs).
  destruct (m s) as [s1 [a|e|c]]; [by apply Hk|done|done].
Qed.

Lemma preserves_try_except {A} (body : M St A) (handler : exn -> M St A) :
  preserves P body -> (forall e, preserves P (handler e)) ->
  preserves P (try_except body handler).
Proof.
  intros Hb Hh s Hs. unfold try_except. specialize (Hb s Hs).
  destruct (body s) as [s1 [a|e|c]]; [done|by apply Hh|done].
Qed.

Lemma preserves_modify (f : St -> St) :
  (forall s, P s -> P (f s)) -> preserves P (modify f).
Proof. intros Hf s Hs. by apply Hf. Qed.

End Preserves.

Lemma send_heartbeat_status_inv env cfg : preserves (status_inv cfg) (send_heartbeat env).
Proof.
  intros s (Hc & Hd & Hw).
  destruct (send_heartbeat_returns env s) as (_ & _ & Hc' & Hts & Hsw & _).
  unfold status_inv. by rewrite Hc', Hts, Hsw.
Qed.

Lemma send_heartbeat_status_full env cfg : preserves (status_full cfg) (send_heartbeat env).
Proof.
  intros s [Hinv Hd]. split; [by apply send_heartbeat_status_inv|].
  destruct (send_heartbeat_returns env s) as (_ & _ & _ & -> & _). done.
Qed.

(** A sweep started with only configured keys ends with exactly the
    configured keys, and stores only configured keys on the way. *)
Lemma send_target_metrics_fills env cfg s :
  status_inv cfg s -> status_full cfg (fst (send_target_metrics env s)).
Proof.
  intros (Hc & Hd & Hw).
  destruct (send_target_metrics_returns env s) as (_ & _ & Hc' & _).
  destruct (send_target_metrics_status env s) as (Hsw & _ & Hdom).
  cbn zeta in *. rewrite Hc in *.
  assert (Hfull : dom (target_status (self (fst (send_target_metrics env s))))
                  = list_to_set (monitor_targets cfg)).
  { rewrite Hdom. apply leibniz_equiv. apply subseteq_union_1 in Hd.
    by rewrite Hd. }
  split; [|done]. split; [congruence|]. split; [by rewrite Hfull|].
  rewrite Hsw. apply Forall_app. split; [|done].
  apply Forall_rev. apply sweep_writes_dom; done.
Qed.

Lemma send_target_metrics_status_full env cfg :
  preserves (status_full cfg) (send_target_metrics env).
Proof. intros s [Hinv _]. by apply send_target_metrics_fills. Qed.

Lemma time_sleep_status_full env cfg secs :
  preserves (status_full cfg) (time_sleep env secs).
Proof.
  intros s Hs. unfold time_sleep. destruct (secs <? 0); [done|].
  destruct (signal_in_sleep env (sleeps (world s))); done.
Qed.

Lemma monitoring_loop_status_full env cfg fuel :
  preserves (status_full cfg) (monitoring_loop env fuel).
Proof.
  induction fuel as [|fuel IH]; cbn [monitoring_loop].
  - apply preserves_bind; [apply preserves_gets|]. intros r.
    destruct (negb r); apply preserves_ret.
  - apply preserves_bind; [apply preserves_gets|]. intros r.
    destruct (negb r); [apply preserves_ret|].
    apply preserves_bind; [apply preserves_gets|]. intros c.
    apply preserves_bind; [apply time_sleep_status_full|]. intros _.
    apply preserves_bind; [apply preserves_gets|]. intros r'.
    destruct (negb r'); [apply preserves_ret|].
    apply preserves_bind; [apply send_heartbeat_status_full|]. intros _.
    apply preserves_bind; [|intros _; exact IH].
    destruct (truthy_list (monitor_targets c));
      [apply send_target_metrics_status_full|apply preserves_ret].
Qed.

Lemma status_inv_no_targets cfg s :
  monitor_targets cfg = [] -> status_inv cfg s -> status_full cfg s.
Proof.
  intros Hnone Hinv. split; [done|]. destruct Hinv as (_ & Hd & _).
  rewrite Hnone in *. apply leibniz_equiv. set_solver.
Qed.

Lemma first_round_returns env s :
  snd (first_round env s) = Return tt
  /\ running (self (fst (first_round env s))) = true
  /\ config (self (fst (first_round env s))) = config (self s)
  /\ sleeps (world (fst (first_round env s))) = sleeps (world s).
Proof.
  unfold first_round, bind, modify, gets.
  pose proof (send_heartbeat_returns env (set_self (set_running true) s))
    as (Hr & Hrun & Hcfg & _ & _ & Hsl).
  destruct (send_heartbeat env (set_self (set_running true) s)) as [s2 r2].
  cbn [fst snd] in *. subst r2.
  cbn [self set_self config set_running].
  destruct (truthy_list (monitor_targets (config (self s)))).
  - pose proof (send_target_metrics_returns env s2) as (Hr' & Hrun' & Hcfg' & _ & Hsl').
    destruct (send_target_metrics env s2) as [s3 r3]. cbn [fst snd] in *. subst r3.
    cbn [fst snd]. rewrite Hrun', Hcfg', Hsl', Hrun, Hcfg, Hsl. done.
  - unfold ret. cbn [fst snd]. rewrite Hrun, Hcfg, Hsl. done.
Qed.

Lemma first_round_fills env cfg s :
  status_inv cfg s -> status_full cfg (fst (first_round env s)).
Proof.
  intros Hinv. unfold first_round, bind, modify, gets.
  assert (Hinv1 : status_inv cfg (set_self (set_running true) s)) by exact Hinv.
  pose proof (send_heartbeat_status_inv env cfg _ Hinv1) as Hinv2.
  pose proof (send_heartbeat_returns env (set_self (set_running true) s)) as (Hr & _).
  destruct (send_heartbeat env (set_self (set_running true) s)) as [s2 r2].
  cbn [fst snd] in *. subst r2. cbn [self set_self config set_running].
  destruct Hinv as (Hc & _). rewrite Hc.
  destruct (monitor_targets cfg) as [|t rest] eqn:Ht; cbn [truthy_list].
  - unfold ret. cbn [fst]. by apply status_inv_no_targets.
  - pose proof (send_target_metrics_fills env cfg s2 Hinv2) as Hfull.
    by destruct (send_target_metrics env s2) as [s3 [[]|e|c]].
Qed.

Lemma run_eq env fuel s :
  run env fuel s
  = match try_except (monitoring_loop env fuel) (fun e => ret LoopEnded)
            (fst (first_round env s)) with
    | (s', Return OutOfFuel) => (s', Return OutOfFuel)
    | (s', r) => (set_self (set_running false) s', r)
    end.
Proof.
  pose proof (first_round_returns env s) as (Hr & _).
  unfold run, first_round in *. unfold bind, modify, gets in *.
  destruct (send_heartbeat env (set_self (set_running true) s)) as [s2 [[]|e|c]];
    cbn [fst snd] in *; try done.
  cbn [self set_self config set_running] in *.
  destruct (truthy_list (monitor_targets (config (self s)))).
  - by destruct (send_target_metrics env s2) as [s3 [[]|e|c]].
  - done.
Qed.

(** [run] keeps the keys of the shared mapping within the configured
    targets and leaves every configured target with an entry. *)
Lemma run_status_full env cfg fuel s :
  status_inv cfg s -> status_full cfg (fst (run env fuel s)).
Proof.
  intros Hinv. rewrite run_eq.
  pose proof (first_round_fills env cfg s Hinv) as Hfull.
  pose proof (preserves_try_except (status_full cfg) (monitoring_loop env fuel)
                (fun e => ret LoopEnded) (monitoring_loop_status_full env cfg fuel)
                (fun e => preserves_ret _ _) _ Hfull) as Hloop.
  destruct (try_except (monitoring_loop env fuel) (fun e => ret LoopEnded)
              (fst (first_round env s))) as [s' [[|]|e|c]]; exact Hloop.
Qed.

Lemma init_status_inv env environ hostname w m :
  __init__ env environ hostname world0 = (w, Return m) ->
  status_inv (config m) {| world := w; self := m |}.
Proof.
  unfold __init__. destruct (_load_config environ hostname) as [cfg|e|c]; [|done|done].
  destruct (list_metrics env); [done|]. intros [= <- <-].
  split; [done|]. split; [|constructor]. cbn. set_solver.
Qed.

Lemma list_to_set_remove_dups (l : list string) :
  list_to_set (remove_dups l) =@{gset string} list_to_set l.
Proof.
  apply set_eq. intros x. by rewrite !elem_of_list_to_set, elem_of_remove_dups.
Qed.

Lemma size_of_keys (ts : gmap string TargetStatus) (targets : list string) :
  dom ts = list_to_set targets ->
  size ts = length (remove_dups targets)
  /\ (NoDup targets -> size ts = length targets).
Proof.
  intros Hd. rewrite <- (size_dom ts), Hd. split.
  - rewrite <- list_to_set_remove_dups. apply size_list_to_set, NoDup_remove_dups.
  - apply size_list_to_set.
Qed.

(** C7 (as the code has it). From construction on, whatever the outside
    world does and however long the monitor runs: every mapping ever stored
    as the shared status has only configured targets as keys; after each
    sweep, and so whenever [run] is left or interrupted, the keys are exactly
    the set of configured targets. The number of entries is the number of
    distinct targets, which is the length of the target list when no target
    is listed twice. *)
Theorem status_keys_are_targets
    (env : Env) (environ : gmap string string) (hostname : string)
    (w : World) (m : Monitor) (fuel : nat) :
  __init__ env environ hostname world0 = (w, Return m) ->
  let targets := monitor_targets (config m) in
  let s' := fst (run env fuel {| world := w; self := m |}) in
  dom (target_status (self s')) = list_to_set targets
  /\ size (target_status (self s')) = length (remove_dups targets)
  /\ (NoDup targets -> size (target_status (self s')) = length targets)
  /\ Forall (fun ts => dom ts ⊆@{gset string} list_to_set targets)
       (status_writes (world s'))
  /\ (forall s, status_inv (config m) s ->
        dom (target_status (self (fst (send_target_metrics env s))))
        = list_to_set targets
        /\ Forall (fun ts => dom ts ⊆@{gset string} list_to_set targets)
             (status_writes (world (fst (send_target_metrics env s))))).
Proof.
  intros Hinit. cbn zeta.
  pose proof (run_status_full env (config m) fuel _
                (init_status_inv _ _ _ _ _ Hinit)) as [(_ & _ & Hw) Hd].
  destruct (size_of_keys _ _ Hd) as [Hsz Hnd].
  repeat (split; [done|]).
  intros s Hs. destruct (send_target_metrics_fills env (config m) s Hs)
    as [(_ & _ & Hw') Hd']. done.
Qed.

Lemma status_keys_are_targets_witness :
  dom (target_status (self (fst (run quiet_env 2 (built environ_pair)))))
  = list_to_set ["10.0.0.1"; "10.0.0.2"]
  /\ size (target_status (self (fst (run quiet_env 2 (built environ_pair))))) = 2%nat.
Proof.
  assert (Hinit : __init__ quiet_env environ_pair "host" world0
                  = (world (built environ_pair), Return (self (built environ_pair))))
    by (vm_compute; reflexivity).
  destruct (status_keys_are_targets quiet_env environ_pair "host" _ _ 2 Hinit)
    as (Hd & Hsz & _).
  split; [exact Hd | exact Hsz].
Defined.

(** C7 (as stated) fails where it equates the sizes: with a host listed
    twice the target list has two elements and the shared mapping, after a
    sweep, one entry. *)
Lemma one_entry_for_two_targets :
  length (monitor_targets (config (self (built environ_twice)))) = 2%nat
  /\ size (target_status (self (fst (run quiet_env 1 (built environ_twice))))) = 1%nat.
Proof. split; vm_compute; reflexivity. Qed.

Lemma lookup_last {A} (l : list A) (d : A) :
  l <> [] -> l !! (length l - 1)%nat = Some (List.last l d).
Proof.
  induction l as [|x l IH]; [done|]. intros _.
  destruct l as [|y l]; [done|].
  change (List.last (x :: y :: l) d) with (List.last (y :: l) d).
  rewrite <- IH by done. simpl. by rewrite Nat.sub_0_r.
Qed.

(** C4 (as the code has it). A sweep stores into the shared mapping once per
    target, inside the probe loop, in the order of the target list. The
    mapping after the store for target number [k] has entries of this sweep
    for the targets up to [k] and, for every other key, what the mapping held
    before the sweep. When the sweep is over every configured target has an
    entry of this sweep. *)
Theorem sweep_stores_target_by_target (env : Env) (s : St) :
  let ct := clock env (clock_reads (world s)) in
  let targets := monitor_targets (config (self s)) in
  let s' := fst (send_target_metrics env s) in
  exists writes,
    status_writes (world s') = (rev writes ++ status_writes (world s))%list
    /\ length writes = length targets
    /\ (forall k ts, writes !! k = Some ts ->
          (forall t, t ∈ take (S k) targets ->
             exists e, ts !! t = Some e /\ last_check e = isoformat ct)
          /\ (forall t, t ∉ take (S k) targets ->
                ts !! t = target_status (self s) !! t))
    /\ (forall t, t ∈ targets ->
          exists e, target_status (self s') !! t = Some e
                    /\ last_check e = isoformat ct).
Proof.
  cbn zeta. destruct (send_target_metrics_status env s) as (Hsw & Hlast & _).
  cbn zeta in *.
  set (writes := sweep_writes env (clock env (clock_reads (world s)))
                   (monitor_targets (config (self s))) (set_world tick_clock s)) in *.
  exists writes. split; [done|].
  assert (Hlen : length writes = length (monitor_targets (config (self s))))
    by apply sweep_writes_length.
  split; [done|]. split.
  - intros k ts Hk. exact (sweep_writes_lookup _ _ _ _ _ _ Hk).
  - intros t Ht. rewrite Hlast.
    assert (Hne : writes <> []).
    { intros Hnil. rewrite Hnil in Hlen. destruct (monitor_targets (config (self s)));
        [by apply elem_of_nil in Ht|done]. }
    pose proof (lookup_last writes (target_status (self s)) Hne) as Hl.
    apply sweep_writes_lookup in Hl as [Hin _]. apply Hin.
    rewrite Hlen. rewrite firstn_all2; [done|].
    destruct (monitor_targets (config (self s))); [by apply elem_of_nil in Ht|simpl; lia].
Qed.

Lemma sweep_stores_target_by_target_witness :
  exists ts e1 e2,
    status_writes (world (fst (send_target_metrics quiet_env
                                 (before_second_sweep quiet_env (built environ_pair)))))
      !! 1%nat = Some ts
    /\ ts !! "10.0.0.1" = Some e1 /\ last_check e1 = Iso (10 # 1)
    /\ ts !! "10.0.0.2" = Some e2 /\ last_check e2 = Iso (3 # 1).
Proof.
  pose proof (sweep_stores_target_by_target quiet_env
                (before_second_sweep quiet_env (built environ_pair))) as H.
  cbn zeta in H.
  assert (Ht : monitor_targets
                 (config (self (before_second_sweep quiet_env (built environ_pair))))
               = ["10.0.0.1"; "10.0.0.2"]) by (vm_compute; reflexivity).
  assert (Hct : clock quiet_env
                  (clock_reads (world (before_second_sweep quiet_env (built environ_pair))))
                = (10 # 1)%Q) by (vm_compute; reflexivity).
  rewrite Ht, Hct in H. destruct H as (writes & Hsw & Hlen & Hmid & _).
  destruct writes as [|ts0 [|ts1 [|ts2 writes]]]; try discriminate Hlen.
  destruct (Hmid 0%nat ts0 eq_refl) as [Hin Hout].
  destruct (Hin "10.0.0.1") as (e1 & He1 & Hc1); [by left|].
  assert (Hnot : "10.0.0.2" ∉ take 1 ["10.0.0.1"; "10.0.0.2"]).
  { intros Hel. apply list_elem_of_singleton in Hel. discriminate. }
  specialize (Hout "10.0.0.2" Hnot).
  exists ts0, e1, {| online := true; response_time := 1000 # 1; last_check := Iso (3 # 1) |}.
  rewrite Hsw. split; [reflexivity|]. split; [exact He1|].
  split; [exact Hc1|]. split; [|reflexivity].
  rewrite Hout. vm_compute. reflexivity.
Defined.

(** C4 (as stated) fails. While the second sweep probes its second target,
    the shared mapping holds the first target's entry of the second sweep
    (checked at time 10) beside the second target's entry of the first sweep
    (checked at time 3); a health request served in that state returns this
    mapping. *)
Lemma reader_sees_half_a_sweep :
  let s1 := before_second_sweep quiet_env (built environ_pair) in
  let cfg := config (self s1) in
  let ct := clock quiet_env (clock_reads (world s1)) in
  let mid := fst (sweep_target quiet_env cfg ct [] "10.0.0.1" (set_world tick_clock s1)) in
  sweep_targets quiet_env cfg ct ["10.0.0.1"; "10.0.0.2"] [] (set_world tick_clock s1)
  = sweep_targets quiet_env cfg ct ["10.0.0.2"]
      (points_at quiet_env cfg ct "10.0.0.1" (set_world tick_clock s1)) mid
  /\ exists doc ts,
       snd (health quiet_env mid) = Return doc
       /\ hd_target_status doc = Some ts
       /\ last_check <$> ts !! "10.0.0.1" = Some (Iso (10 # 1))
       /\ last_check <$> ts !! "10.0.0.2" = Some (Iso (3 # 1))
       /\ Iso (10 # 1) <> Iso (3 # 1).
Proof.
  cbn zeta. split; [vm_compute; reflexivity|].
  eexists _, _. split; [vm_compute; reflexivity|].
  split; [reflexivity|]. split; [vm_compute; reflexivity|].
  split; [vm_compute; reflexivity|]. discriminate.
Qed.

(** ** The loop *)

Lemma time_sleep_quiet env secs s :
  0 <= secs -> signal_in_sleep env (sleeps (world s)) = None ->
  time_sleep env secs s = (set_world tick_sleeps s, Return tt).
Proof.
  intros Hsecs Hsig. unfold time_sleep.
  destruct (Z.ltb_spec secs 0); [lia|]. by rewrite Hsig.
Qed.

(** One iteration of the loop from a state with the flag set: past the
    sleep, the heartbeat and the sweep return and the loop goes on. *)
Lemma monitoring_loop_step env fuel s :
  running (self s) = true ->
  0 <= heartbeat_interval (config (self s)) ->
  signal_in_sleep env (sleeps (world s)) = None ->
  exists s2,
    monitoring_loop env (S fuel) s = monitoring_loop env fuel s2
    /\ running (self s2) = true
    /\ config (self s2) = config (self s)
    /\ sleeps (world s2) = S (sleeps (world s)).
Proof.
  intros Hrun Hint Hsig. cbn [monitoring_loop].
  unfold bind at 1, gets at 1. rewrite Hrun. cbn [negb].
  unfold bind at 1, gets at 1. unfold bind at 1.
  rewrite time_sleep_quiet by done.
  unfold bind at 1, gets at 1. cbn [self set_world]. rewrite Hrun. cbn [negb].
  unfold bind at 1.
  pose proof (send_heartbeat_returns env (set_world tick_sleeps s))
    as (Hr & Hrun1 & Hcfg1 & _ & _ & Hsl1).
  destruct (send_heartbeat env (set_world tick_sleeps s)) as [s1 r1].
  cbn [fst snd] in *. subst r1. unfold bind at 1.
  destruct (truthy_list (monitor_targets (config (self s)))).
  - pose proof (send_target_metrics_returns env s1) as (Hr' & Hrun' & Hcfg' & _ & Hsl').
    destruct (send_target_metrics env s1) as [s2 r2]. cbn [fst snd] in *. subst r2.
    exists s2. rewrite Hrun', Hcfg', Hsl', Hrun1, Hcfg1, Hsl1. done.
  - exists s1. unfold ret. rewrite Hrun1, Hcfg1, Hsl1. done.
Qed.


(** The loop is left only through the sleep: by a termination signal or by
    the [ValueError] of a negative interval. *)
Lemma monitoring_loop_exits env fuel s :
  running (self s) = true ->
  snd (monitoring_loop env fuel s) = Return OutOfFuel
  \/ (snd (monitoring_loop env fuel s) = SysExit 0
      /\ exists n, signal_in_sleep env n <> None)
  \/ (snd (monitoring_loop env fuel s)
      = Raise (ValueError "sleep length must be non-negative")
      /\ heartbeat_interval (config (self s)) < 0).
Proof.
  revert s. induction fuel as [|fuel IH]; intros s Hrun.
  - left. cbn [monitoring_loop]. unfold bind, gets. by rewrite Hrun.
  - destruct (Z.ltb_spec (heartbeat_interval (config (self s))) 0) as [Hneg|Hint].
    + right. right. split; [|done]. cbn [monitoring_loop].
      unfold bind, gets, time_sleep. rewrite Hrun. cbn [negb].
      by rewrite (proj2 (Z.ltb_lt _ _) Hneg).
    + destruct (signal_in_sleep env (sleeps (world s))) as [sig|] eqn:Hsig.
      * right. left. split; [|exists (sleeps (world s)); by rewrite Hsig].
        cbn [monitoring_loop]. unfold bind, gets, time_sleep. rewrite Hrun.
        cbn [negb]. rewrite (proj2 (Z.ltb_ge _ _) Hint), Hsig. reflexivity.
      * destruct (monitoring_loop_step env fuel s Hrun Hint Hsig)
          as (s2 & -> & Hrun2 & Hcfg2 & _).
        rewrite <- Hcfg2. by apply IH.
Qed.



(** ** The health view *)

Lemma health_eq env s :
  health env s
  = (set_world tick_clock (set_world tick_clock s),
     Return {| status := if running (self s) then "healthy" else "unhealthy";
               hd_container_name := container_name (config (self s));
               uptime_seconds :=
                 round1 (clock env (clock_reads (world s)) - start_time (self s));
               hd_last_heartbeat := isoformat <$> last_heartbeat (self s);
               hd_target_status :=
                 if truthy_list (monitor_targets (config (self s)))
                 then Some (target_status (self s)) else None;
               timestamp := isoformat (clock env (S (clock_reads (world s)))) |}).
Proof. reflexivity. Qed.

(** C9. A request to the health view always gets a document. Its status is
    "healthy" exactly when the running flag is set, and "unhealthy" exactly
    when it is not; a sweep, whatever its probes find, does not change the
    flag, so the view of a running monitor still says "healthy" after it. The
    target_status of the document is null exactly when the target list is
    empty; otherwise it is the shared status mapping. The request leaves the
    monitor as it found it. *)
Theorem health_reports_running_flag (env : Env) (s : St) :
  exists s' doc,
    health env s = (s', Return doc)
    /\ self s' = self s
    /\ (status doc = "healthy" <-> running (self s) = true)
    /\ (status doc = "unhealthy" <-> running (self s) = false)
    /\ (hd_target_status doc = None <-> monitor_targets (config (self s)) = [])
    /\ (monitor_targets (config (self s)) <> [] ->
        hd_target_status doc = Some (target_status (self s)))
    /\ (forall env', running (self s) = true ->
          exists s'' doc',
            health env (fst (send_target_metrics env' s)) = (s'', Return doc')
            /\ status doc' = "healthy").
Proof.
  rewrite health_eq. eexists _, _. split; [reflexivity|]. cbn.
  split; [done|].
  assert (Hsweep : forall env', running (self s) = true ->
            exists s'' doc',
              health env (fst (send_target_metrics env' s)) = (s'', Return doc')
              /\ status doc' = "healthy").
  { intros env' Hrun. rewrite health_eq. eexists _, _. split; [reflexivity|].
    destruct (send_target_metrics_returns env' s) as (_ & Hr & _).
    cbn [status]. by rewrite Hr, Hrun. }
  split; [destruct (running (self s)); split; (done || discriminate)|].
  split; [destruct (running (self s)); split; (done || discriminate)|].
  split; [destruct (monitor_targets (config (self s))); split; (done || discriminate)|].
  split; [|exact Hsweep].
  destruct (monitor_targets (config (self s))); done.
Qed.

Lemma health_reports_running_flag_witness :
  exists s'' doc,
    health quiet_env
      (fst (send_target_metrics (refusing_env (fun _ => None))
              (beating_state ["10.0.0.1"])))
    = (s'', Return doc)
    /\ status doc = "healthy".
Proof.
  destruct (health_reports_running_flag quiet_env (beating_state ["10.0.0.1"]))
    as (_ & _ & _ & _ & _ & _ & _ & _ & H).
  exact (H (refusing_env (fun _ => None)) eq_refl).
Defined.

(** ** More on the target list *)

Section StripFacts.

Import PyStr.

Lemma split_fields_no_sep sep s :
  Forall (fun f => contains sep f = false) (split sep s).
Proof.
  induction s as [|c s IH]; simpl; [by repeat constructor|].
  destruct (Ascii.eqb c sep) eqn:Hc; [by constructor|].
  destruct (split sep s) as [|f fs].
  - repeat constructor. simpl. by rewrite Hc.
  - apply Forall_cons in IH as [Hf Hfs]. constructor; [|done].
    simpl. by rewrite Hc, Hf.
Qed.

Lemma lstrip_contains c s : contains c s = false -> contains c (lstrip s) = false.
Proof.
  induction s as [|a s IH]; [done|]. simpl.
  intros [Ha Hs]%orb_false_elim. destruct (isspace a); [by apply IH|].
  simpl. by rewrite Ha, Hs.
Qed.

Lemma rstrip_contains c s : contains c s = false -> contains c (rstrip s) = false.
Proof.
  induction s as [|a s IH]; [done|]. simpl.
  intros [Ha Hs]%orb_false_elim. specialize (IH Hs).
  destruct (rstrip s) as [|b r].
  - destruct (isspace a); [done|]. simpl. by rewrite Ha.
  - simpl in *. by rewrite Ha, IH.
Qed.

Lemma rstrip_idem s : rstrip (rstrip s) = rstrip s.
Proof.
  induction s as [|a s IH]; [done|]. simpl.
  destruct (rstrip s) as [|b r] eqn:Hr.
  - destruct (isspace a) eqn:Ha; [done|]. simpl. by rewrite Ha.
  - change (rstrip (String a (String b r)))
      with (match rstrip (String b r) with
            | EmptyString => if isspace a then EmptyString else String a EmptyString
            | String c r' => String a (String c r')
            end).
    by rewrite IH.
Qed.

(** What [lstrip] leaves is empty or starts with a character that is not
    white space. *)
Lemma lstrip_head s :
  lstrip s = EmptyString
  \/ exists a r, lstrip s = String a r /\ isspace a = false.
Proof.
  induction s as [|a s IH]; [by left|]. simpl.
  destruct (isspace a) eqn:Ha; [done|]. right. by exists a, s.
Qed.

Lemma lstrip_rstrip_lstrip s : lstrip (rstrip (lstrip s)) = rstrip (lstrip s).
Proof.
  destruct (lstrip_head s) as [-> | (a & r & -> & Ha)]; [done|].
  simpl. destruct (rstrip r); rewrite ?Ha; simpl; rewrite ?Ha; done.
Qed.

Lemma strip_idem s : strip (strip s) = strip s.
Proof. unfold strip. by rewrite lstrip_rstrip_lstrip, rstrip_idem. Qed.

Lemma map_strip_stripped (ts : list string) :
  Forall (fun t => truthy t = true /\ strip t = t) ts ->
  List.map strip (List.filter (fun f => truthy (strip f)) ts) = ts.
Proof.
  induction 1 as [|t ts [Ht Hs] _ IH]; [done|].
  simpl. rewrite Hs, Ht. simpl. by rewrite Hs, IH.
Qed.

Lemma parse_targets_fields s :
  Forall (fun t => truthy t = true /\ strip t = t /\ contains "," t = false)
    (_parse_targets s).
Proof.
  unfold _parse_targets. destruct (truthy s); simpl; [|constructor].
  pose proof (split_fields_no_sep "," s) as Hall.
  induction Hall as [|f fs Hf _ IH]; [constructor|]. simpl.
  destruct (truthy (strip f)) eqn:Ht; [|done]. simpl. constructor; [|done].
  split; [done|]. split; [apply strip_idem|].
  unfold strip. by apply rstrip_contains, lstrip_contains.
Qed.

End StripFacts.

(** X1. Whatever the input, every parsed target is a non-empty string with
    no white space at either end and no comma in it. *)
Theorem parsed_targets_are_clean (targets_str : string) :
  Forall (fun t => t <> "" /\ PyStr.strip t = t /\ PyStr.contains "," t = false)
    (_parse_targets targets_str).
Proof.
  eapply Forall_impl; [apply parse_targets_fields|].
  intros t (Ht & Hs & Hc). split; [|done]. intros ->. discriminate.
Qed.

(** X2. Writing the parsed targets back as one comma-separated value and
    parsing that gives the same list again. *)
Theorem parse_targets_of_joined (targets_str : string) :
  _parse_targets (PyStr.join "," (_parse_targets targets_str))
  = _parse_targets targets_str.
Proof.
  pose proof (parse_targets_fields targets_str) as Hall.
  rewrite parse_targets_join.
  - apply map_strip_stripped. eapply Forall_impl; [exact Hall|].
    by intros t (? & ? & _).
  - eapply Forall_impl; [exact Hall|]. by intros t (_ & _ & ?).
Qed.

(** ** More on the configuration *)

(** X3. When one of the four integer settings does not parse,
    [_load_config] raises the [ValueError] of the first such setting, in the
    order interval, target port, timeout, health port, whether or not the
    credentials are there; the exit with status 1 for missing credentials
    happens only when all four parse. *)
Theorem load_config_failure_order (environ : gmap string string) (hostname : string) :
  match first_bad_int environ with
  | Some v => _load_config environ hostname = Raise (ValueError v)
  | None =>
      if truthy_opt (getenv environ "AWS_ACCESS_KEY_ID")
         && truthy_opt (getenv environ "AWS_SECRET_ACCESS_KEY")
      then exists cfg, _load_config environ hostname = Return cfg
      else _load_config environ hostname = SysExit 1
  end.
Proof.
  unfold first_bad_int, _load_config, py_int. cbn [List.find].
  destruct (PyStr.parse_int (getenv_default environ "HEARTBEAT_INTERVAL" "300"));
    [|done].
  destruct (PyStr.parse_int (getenv_default environ "TARGET_PORT" "80")); [|done].
  destruct (PyStr.parse_int (getenv_default environ "TARGET_TIMEOUT" "5")); [|done].
  destruct (PyStr.parse_int (getenv_default environ "HEALTH_PORT" "8080")); [|done].
  cbn [rbind aws_access_key_id aws_secret_access_key].
  destruct (truthy_opt (getenv environ "AWS_ACCESS_KEY_ID")),
    (truthy_opt (getenv environ "AWS_SECRET_ACCESS_KEY")); cbn; eauto.
Qed.

Section Letters.

Import PyStr.

Lemma lower_char_letters (x : ascii) :
  (lower_char x = "t"%char <-> letter "t" "T" x)
  /\ (lower_char x = "r"%char <-> letter "r" "R" x)
  /\ (lower_char x = "u"%char <-> letter "u" "U" x)
  /\ (lower_char x = "e"%char <-> letter "e" "E" x).
Proof.
  unfold letter.
  destruct x as [[] [] [] [] [] [] [] []]; vm_compute;
    repeat split; intros H;
    first [ discriminate H
          | left; reflexivity
          | right; reflexivity
          | destruct H as [H|H]; first [discriminate H | reflexivity] ].
Qed.

Lemma lower_spells_true (v : string) :
  String.eqb (lower v) "true" = true <-> spells_true v.
Proof.
  rewrite String.eqb_eq. unfold spells_true. split.
  - destruct v as [|a [|b [|c [|d [|? ?]]]]]; try discriminate.
    simpl. intros [= Ha Hb Hc Hd]. exists a, b, c, d. split; [done|].
    repeat split.
    + by apply (lower_char_letters a).
    + by apply (lower_char_letters b).
    + by apply (lower_char_letters c).
    + by apply (lower_char_letters d).
  - intros (a & b & c & d & -> & Ha & Hb & Hc & Hd). simpl.
    apply (lower_char_letters a) in Ha. apply (lower_char_letters b) in Hb.
    apply (lower_char_letters c) in Hc. apply (lower_char_letters d) in Hd.
    by rewrite Ha, Hb, Hc, Hd.
Qed.

End Letters.

(** X4. In an accepted configuration the health endpoint is enabled exactly
    when ENABLE_HEALTH_ENDPOINT is set to the four letters of "true", each in
    either case; every other value, and a missing one, leaves it disabled. *)
Theorem health_endpoint_enabled_by_true
    (environ : gmap string string) (hostname : string) (cfg : Config) :
  _load_config environ hostname = Return cfg ->
  (enable_health_endpoint cfg = true
   <-> exists v, environ !! "ENABLE_HEALTH_ENDPOINT" = Some v /\ spells_true v).
Proof.
  unfold _load_config, py_int.
  destruct (PyStr.parse_int (getenv_default environ "HEARTBEAT_INTERVAL" "300"));
    [|discriminate].
  destruct (PyStr.parse_int (getenv_default environ "TARGET_PORT" "80")); [|discriminate].
  destruct (PyStr.parse_int (getenv_default environ "TARGET_TIMEOUT" "5")); [|discriminate].
  destruct (PyStr.parse_int (getenv_default environ "HEALTH_PORT" "8080")); [|discriminate].
  cbn [rbind aws_access_key_id aws_secret_access_key].
  destruct (negb _ || negb _); [discriminate|]. intros [= <-].
  cbn [enable_health_endpoint]. rewrite lower_spells_true.
  unfold getenv_default. destruct (environ !! "ENABLE_HEALTH_ENDPOINT") as [v|]; simpl.
  - split; [intros H; by exists v | intros (v' & [= <-] & H); done].
  - split; [|intros (v' & [=] & _)].
    intros (a & b & c & d & [=] & _).
Qed.

Lemma health_endpoint_enabled_by_true_witness :
  exists cfg, _load_config environ_endpoint "host" = Return cfg
              /\ enable_health_endpoint cfg = true.
Proof.
  assert (Hload : _load_config environ_endpoint "host"
                  = Return (config_of environ_endpoint "host" 300 80 5 9090))
    by (vm_compute; reflexivity).
  eexists. split; [exact Hload|].
  apply (health_endpoint_enabled_by_true _ _ _ Hload).
  exists "TRUE". split; [reflexivity|].
  exists "T"%char, "R"%char, "U"%char, "E"%char.
  split; [reflexivity|]. repeat split; by right.
Defined.

(** ** Integers written by [str] and read by [int] *)

Section Decimal.

Import PyStr.

Lemma pretty_N_char_digit d : (d < 10)%N -> digit_of (pretty_N_char d) = Some (Z.of_N d).
Proof.
  intros Hd.
  assert (d = 0 \/ d = 1 \/ d = 2 \/ d = 3 \/ d = 4 \/ d = 5 \/ d = 6 \/ d = 7
          \/ d = 8 \/ d = 9)%N as H by lia.
  repeat (destruct H as [->|H]; [reflexivity|]). by subst.
Qed.

Lemma pretty_N_char_is_digit d : is_digit (pretty_N_char d) = true.
Proof. unfold pretty_N_char. repeat case_match; reflexivity. Qed.

Lemma is_digit_not_space c : is_digit c = true -> isspace c = false.
Proof. destruct c as [[] [] [] [] [] [] [] []]; vm_compute; congruence. Qed.

Lemma pretty_N_go_digits x s :
  all_chars is_digit s = true -> all_chars is_digit (pretty_N_go x s) = true.
Proof.
  revert s. induction (N.lt_wf_0 x) as [x _ IH]. intros s Hs.
  destruct (decide (0 < x)%N) as [Hx|Hx].
  - rewrite pretty_N_go_step by done. apply IH; [by apply N.div_lt|].
    simpl. by rewrite pretty_N_char_is_digit.
  - assert (x = 0%N) as -> by lia. by rewrite pretty_N_go_0.
Qed.

Lemma pretty_N_go_not_empty x s : s <> EmptyString -> pretty_N_go x s <> EmptyString.
Proof.
  revert s. induction (N.lt_wf_0 x) as [x _ IH]. intros s Hs.
  destruct (decide (0 < x)%N) as [Hx|Hx].
  - rewrite pretty_N_go_step by done. apply IH; [by apply N.div_lt|done].
  - assert (x = 0%N) as -> by lia. by rewrite pretty_N_go_0.
Qed.

(** Reading the digits that [pretty_N_go] writes in front of [s]. *)
Lemma int_digits_pretty_N_go x :
  (0 < x)%N ->
  exists k : Z,
    0 <= k /\
    forall acc prev s,
      int_digits acc prev (pretty_N_go x s)
      = int_digits (acc * 10 ^ k + Z.of_N x) true s.
Proof.
  induction (N.lt_wf_0 x) as [x _ IH]. intros Hx.
  assert (Hmod : (x `mod` 10 < 10)%N) by (apply N.mod_lt; lia).
  destruct (decide (0 < x `div` 10)%N) as [Hq|Hq].
  - destruct (IH (x `div` 10)%N) as (k & Hk & Hread); [by apply N.div_lt|done|].
    exists (k + 1). split; [lia|]. intros acc prev s.
    rewrite pretty_N_go_step by done. rewrite Hread. cbn [int_digits].
    rewrite (pretty_N_char_digit _ Hmod). f_equal.
    rewrite Z.pow_add_r by lia.
    pose proof (N.div_mod x 10 ltac:(lia)) as Hdm.
    assert (Hx' : Z.of_N x = 10 * Z.of_N (x `div` 10) + Z.of_N (x `mod` 10)).
    { rewrite Hdm at 1. by rewrite N2Z.inj_add, N2Z.inj_mul. }
    rewrite Hx'. ring.
  - assert (Hq0 : (x `div` 10 = 0)%N).
    { destruct (x `div` 10)%N as [|q]; [done|]. exfalso. apply Hq. lia. }
    exists 1. split; [lia|]. intros acc prev s.
    rewrite pretty_N_go_step by done. rewrite Hq0, pretty_N_go_0. cbn [int_digits].
    rewrite (pretty_N_char_digit _ Hmod). f_equal.
    pose proof (N.div_mod x 10 ltac:(lia)) as Hdm. rewrite Hq0 in Hdm.
    assert (Hx' : Z.of_N x = Z.of_N (x `mod` 10)).
    { rewrite Hdm at 1. by rewrite N.mul_0_r, N.add_0_l. }
    rewrite Hx'. ring.
Qed.

Lemma lstrip_no_space s :
  all_chars (fun c => negb (isspace c)) s = true -> lstrip s = s.
Proof. destruct s as [|c r]; [done|]. simpl. by destruct (isspace c). Qed.

Lemma rstrip_no_space s :
  all_chars (fun c => negb (isspace c)) s = true -> rstrip s = s.
Proof.
  induction s as [|c r IH]; [done|]. simpl.
  intros [Hc Hr]%andb_true_iff. rewrite (IH Hr).
  destruct r; [|done]. by destruct (isspace c).
Qed.

Lemma strip_no_space s :
  all_chars (fun c => negb (isspace c)) s = true -> strip s = s.
Proof. intros H. unfold strip. by rewrite lstrip_no_space, rstrip_no_space. Qed.

Lemma digits_no_space s :
  all_chars is_digit s = true -> all_chars (fun c => negb (isspace c)) s = true.
Proof.
  induction s as [|c r IH]; [done|]. simpl. intros [Hc Hr]%andb_true_iff.
  by rewrite (is_digit_not_space _ Hc), IH.
Qed.

Lemma parse_int_digits s :
  all_chars is_digit s = true -> parse_int s = int_digits 0 false s.
Proof.
  intros Hs. unfold parse_int. rewrite strip_no_space by by apply digits_no_space.
  destruct s as [|c r]; [done|]. simpl in Hs. apply andb_true_iff in Hs as [Hc _].
  destruct c as [[] [] [] [] [] [] [] []]; try reflexivity; discriminate Hc.
Qed.

Lemma parse_int_pretty_N x : parse_int (pretty x) = Some (Z.of_N x).
Proof.
  unfold pretty, pretty_N. destruct (decide (x = 0%N)) as [->|Hx]; [reflexivity|].
  rewrite parse_int_digits by by apply pretty_N_go_digits.
  destruct (int_digits_pretty_N_go x ltac:(lia)) as (k & _ & Hread).
  rewrite Hread. reflexivity.
Qed.

(** [int(str(z))] is [z]. *)
Lemma parse_int_pretty (z : Z) : parse_int (pretty z) = Some z.
Proof.
  destruct z as [|p|p].
  - reflexivity.
  - change (pretty (Z.pos p)) with (pretty (N.pos p)). by rewrite parse_int_pretty_N.
  - change (pretty (Z.neg p)) with (String "-" (pretty (N.pos p))).
    unfold parse_int. rewrite strip_no_space.
    + pose proof (parse_int_pretty_N (N.pos p)) as Hp.
      unfold pretty, pretty_N in *. destruct (decide (N.pos p = 0%N)); [done|].
      rewrite parse_int_digits in Hp by by apply pretty_N_go_digits.
      cbn [Z.of_N] in Hp. by rewrite Hp.
    + simpl. apply digits_no_space. unfold pretty, pretty_N.
      destruct (decide (N.pos p = 0%N)); [done|]. by apply pretty_N_go_digits.
Qed.

End Decimal.


(** ** More on the sweep *)

Lemma after_target_frame env ct t s :
  config (self (after_target env ct t s)) = config (self s)
  /\ connects (world (after_target env ct t s))
     = (if target_timeout (config (self s)) <? 0 then connects (world s)
        else S (connects (world s))).
Proof.
  unfold after_target, after_probe. cbn.
  by destruct (target_timeout (config (self s)) <? 0).
Qed.

Lemma swept_connects env cfg ct targets s :
  connects (world (fst (swept env cfg ct targets s)))
  = if target_timeout (config (self s)) <? 0 then connects (world s)
    else (connects (world s) + length targets)%nat.
Proof.
  revert s. induction targets as [|t rest IH]; intros s.
  - cbn. destruct (_ <? _); [done|lia].
  - cbn [swept fst]. rewrite IH.
    destruct (after_target_frame env ct t s) as [-> ->].
    destruct (_ <? _); [done|]. cbn [length]. lia.
Qed.


Lemma swept_lookup_other env cfg ct targets s t :
  t ∉ targets ->
  target_status (self (fst (swept env cfg ct targets s))) !! t
  = target_status (self s) !! t.
Proof.
  revert s. induction targets as [|t0 rest IH]; intros s Ht; [done|].
  apply not_elem_of_cons in Ht as [Hne Hrest].
  cbn [swept fst]. rewrite (IH _ Hrest), after_target_status.
  by rewrite lookup_insert_ne.
Qed.

Lemma connection_made_negative env s t :
  target_timeout (config (self s)) < 0 -> connection_made env s t = false.
Proof.
  intros H. unfold connection_made. by rewrite (proj2 (Z.ltb_lt _ _) H).
Qed.

Lemma swept_negative env cfg ct targets s :
  target_timeout (config (self s)) < 0 ->
  (forall t, t ∈ targets ->
     exists e, target_status (self (fst (swept env cfg ct targets s))) !! t = Some e
               /\ online e = false)
  /\ Forall (fun p => MetricName p = "TargetStatus" /\ Value p = 0%Q)
       (snd (swept env cfg ct targets s)).
Proof.
  revert s. induction targets as [|t0 rest IH]; intros s Hneg.
  - split; [intros t Ht; by apply elem_of_nil in Ht|constructor].
  - assert (Hneg' : target_timeout (config (self (after_target env ct t0 s))) < 0).
    { by destruct (after_target_frame env ct t0 s) as [-> _]. }
    destruct (IH _ Hneg') as [Hin Hpts]. cbn [swept fst snd]. split.
    + intros t Ht. destruct (decide (t ∈ rest)) as [Hr|Hr]; [by apply Hin|].
      apply elem_of_cons in Ht as [->|Ht]; [|done].
      rewrite (swept_lookup_other _ _ _ _ _ _ Hr), after_target_status,
        lookup_insert_eq.
      eexists. split; [done|]. by apply connection_made_negative.
    + apply Forall_app. split; [|done]. unfold points_at, target_point_metrics.
      rewrite (connection_made_negative _ _ _ Hneg). by repeat constructor.
Qed.

(** X7. With a negative timeout, which the loader accepts, a sweep records
    every configured target as offline without consulting the network, and
    the points it collects are TargetStatus points of value 0 only. *)
Theorem negative_timeout_reports_offline (env : Env) (s : St) :
  target_timeout (config (self s)) < 0 ->
  let s' := fst (send_target_metrics env s) in
  connects (world s') = connects (world s)
  /\ (forall t, t ∈ monitor_targets (config (self s)) ->
        exists e, target_status (self s') !! t = Some e /\ online e = false)
  /\ Forall (fun p => MetricName p = "TargetStatus" /\ Value p = 0%Q)
       (swept_metrics env s).
Proof.
  intros Hneg. cbn zeta.
  destruct (swept_negative env (config (self s)) (clock env (clock_reads (world s)))
              (monitor_targets (config (self s))) (set_world tick_clock s) Hneg)
    as [Hin Hpts].
  split; [|split; [|exact Hpts]].
  - destruct (monitor_targets (config (self s))) as [|t rest] eqn:Ht.
    + by rewrite send_target_metrics_none.
    + rewrite send_target_metrics_eq by (rewrite Ht; done). cbn [fst].
      destruct (log_sink_calls_frame (cloudwatch_namespace (config (self s)))
        (fst (attempted env (length (sink_calls (world s)))
                (cloudwatch_namespace (config (self s)))
                (batches (swept_metrics env s)))) (swept_state env s))
        as (_ & _ & _ & ->).
      unfold swept_state. rewrite swept_connects. cbn [self set_world].
      by rewrite (proj2 (Z.ltb_lt _ _) Hneg).
  - intros t Ht.
    destruct (monitor_targets (config (self s))) as [|t0 rest] eqn:Htargets;
      [by apply elem_of_nil in Ht|].
    rewrite send_target_metrics_eq by (rewrite Htargets; done). cbn [fst].
    rewrite log_sink_calls_self. unfold swept_state. rewrite Htargets.
    by apply Hin.
Qed.

Lemma negative_timeout_reports_offline_witness :
  exists e,
    target_status (self (fst (send_target_metrics quiet_env
                                (tuned_state 300 (-1) ["10.0.0.1"])))) !! "10.0.0.1"
    = Some e
    /\ online e = false.
Proof.
  destruct (negative_timeout_reports_offline quiet_env
              (tuned_state 300 (-1) ["10.0.0.1"]))
    as (_ & Hin & _); [reflexivity|].
  apply Hin. by left.
Defined.

(** The points of one probe: a status point, and a response time point
    exactly when the status point has value 1. *)
Lemma points_at_counts env cfg ct t s :
  length (named "TargetStatus" (points_at env cfg ct t s)) = 1%nat
  /\ length (named "TargetResponseTime" (points_at env cfg ct t s))
     = length (List.filter (fun p => Qeq_bool (Value p) 1)
                 (named "TargetStatus" (points_at env cfg ct t s)))
  /\ (1 <= length (points_at env cfg ct t s) <= 2)%nat.
Proof.
  unfold points_at, target_point_metrics.
  destruct (connection_made env s t); cbn; repeat split; lia.
Qed.

Lemma named_app name (l1 l2 : list MetricPoint) :
  named name (l1 ++ l2) = (named name l1 ++ named name l2)%list.
Proof. unfold named. apply List.filter_app. Qed.

Lemma swept_counts env cfg ct targets s :
  let pts := snd (swept env cfg ct targets s) in
  length (named "TargetStatus" pts) = length targets
  /\ length (named "TargetResponseTime" pts)
     = length (List.filter (fun p => Qeq_bool (Value p) 1) (named "TargetStatus" pts))
  /\ (length targets <= length pts <= 2 * length targets)%nat.
Proof.
  cbn zeta. revert s. induction targets as [|t rest IH]; intros s.
  - cbn. repeat split; lia.
  - cbn [swept snd]. destruct (IH (after_target env ct t s)) as (H1 & H2 & H3).
    destruct (points_at_counts env cfg ct t s) as (P1 & P2 & P3).
    rewrite !named_app, List.filter_app, !length_app, H1, H2, P1, P2.
    cbn [length]. repeat split; lia.
Qed.

(** X8. The loop over [n] targets never raises and adds to the list of
    points one TargetStatus point per element of the target list and one
    TargetResponseTime point for each status point of value 1, so between
    [n] and [2n] points in all. *)
Theorem sweep_point_counts
    (env : Env) (cfg : Config) (ct : Q) (targets : list string)
    (metrics0 : list MetricPoint) (s : St) :
  exists s' pts,
    sweep_targets env cfg ct targets metrics0 s = (s', Return (metrics0 ++ pts)%list)
    /\ length (named "TargetStatus" pts) = length targets
    /\ length (named "TargetResponseTime" pts)
       = length (List.filter (fun p => Qeq_bool (Value p) 1) (named "TargetStatus" pts))
    /\ (length targets <= length pts <= 2 * length targets)%nat.
Proof.
  eexists _, _. split; [apply sweep_targets_eq|]. apply swept_counts.
Qed.

Lemma points_at_ok env cfg ct targets t s :
  t ∈ targets -> Forall (sweep_point_ok cfg ct targets) (points_at env cfg ct t s).
Proof.
  intros Ht. unfold points_at, target_point_metrics.
  assert (Hdims : exists t0 d,
            t0 ∈ targets
            /\ target_dimensions cfg t
               = [("ContainerName", container_name cfg); ("TargetIP", t0);
                  ("TargetPort", d)]
            /\ PyStr.parse_int d = Some (target_port cfg)).
  { exists t, (pretty (target_port cfg)). split; [done|]. split; [done|].
    apply parse_int_pretty. }
  destruct (connection_made env s t).
  - constructor; [|constructor; [|constructor]].
    + split; [done|]. split; [exact Hdims|]. left. cbn. auto.
    + split; [done|]. split; [exact Hdims|]. right. by cbn.
  - constructor; [|constructor].
    split; [done|]. split; [exact Hdims|]. left. cbn. auto.
Qed.

Lemma swept_points_ok env cfg ct all targets s :
  targets ⊆ all -> Forall (sweep_point_ok cfg ct all) (snd (swept env cfg ct targets s)).
Proof.
  revert s. induction targets as [|t rest IH]; intros s Hsub; [constructor|].
  cbn [swept snd]. apply Forall_app. split.
  - apply points_at_ok. apply Hsub. by left.
  - apply IH. intros x Hx. apply Hsub. by right.
Qed.

(** X18. Every point that a sweep collects carries the time read once at
    the start of the sweep, not the time of its probe; its dimensions are the
    container name, one of the configured targets and the target port,
    written so that [int] reads the configured port back; it is either a
    TargetStatus point, counted, of value 0 or 1, or a TargetResponseTime
    point in milliseconds. *)
Theorem sweep_points_are_well_formed
    (env : Env) (cfg : Config) (ct : Q) (targets : list string)
    (metrics0 : list MetricPoint) (s : St) :
  exists s' pts,
    sweep_targets env cfg ct targets metrics0 s = (s', Return (metrics0 ++ pts)%list)
    /\ Forall (sweep_point_ok cfg ct targets) pts.
Proof.
  eexists _, _. split; [apply sweep_targets_eq|]. by apply swept_points_ok.
Qed.

(** ** More on the loop *)

Lemma after_tick_eq env s :
  0 <= heartbeat_interval (config (self s)) ->
  signal_in_sleep env (sleeps (world s)) = None ->
  after_tick env s
  = fst ((if truthy_list (monitor_targets (config (self s)))
          then send_target_metrics env else ret tt)
           (fst (send_heartbeat env (set_world tick_sleeps s)))).
Proof.
  intros Hint Hsig. unfold after_tick, bind.
  rewrite time_sleep_quiet by done.
  pose proof (send_heartbeat_returns env (set_world tick_sleeps s)) as (Hr & _).
  destruct (send_heartbeat env (set_world tick_sleeps s)) as [s1 r1].
  cbn [fst snd] in *. by subst r1.
Qed.

Lemma after_tick_frame env s :
  0 <= heartbeat_interval (config (self s)) ->
  signal_in_sleep env (sleeps (world s)) = None ->
  running (self (after_tick env s)) = running (self s)
  /\ config (self (after_tick env s)) = config (self s)
  /\ sleeps (world (after_tick env s)) = S (sleeps (world s)).
Proof.
  intros Hint Hsig. rewrite after_tick_eq by done.
  pose proof (send_heartbeat_returns env (set_world tick_sleeps s))
    as (_ & Hrun1 & Hcfg1 & _ & _ & Hsl1).
  destruct (truthy_list (monitor_targets (config (self s)))).
  - pose proof (send_target_metrics_returns env
                  (fst (send_heartbeat env (set_world tick_sleeps s))))
      as (_ & Hrun' & Hcfg' & _ & Hsl').
    by rewrite Hrun', Hcfg', Hsl', Hrun1, Hcfg1, Hsl1.
  - unfold ret. cbn [fst]. by rewrite Hrun1, Hcfg1, Hsl1.
Qed.

(** An iteration whose sleep returns hands the loop the state after the
    tick. *)
Lemma monitoring_loop_tick env fuel s :
  running (self s) = true ->
  0 <= heartbeat_interval (config (self s)) ->
  signal_in_sleep env (sleeps (world s)) = None ->
  monitoring_loop env (S fuel) s = monitoring_loop env fuel (after_tick env s).
Proof.
  intros Hrun Hint Hsig. rewrite after_tick_eq by done. cbn [monitoring_loop].
  unfold bind at 1, gets at 1. rewrite Hrun. cbn [negb].
  unfold bind at 1, gets at 1. unfold bind at 1.
  rewrite time_sleep_quiet by done.
  unfold bind at 1, gets at 1. cbn [self set_world]. rewrite Hrun. cbn [negb].
  unfold bind at 1.
  pose proof (send_heartbeat_returns env (set_world tick_sleeps s)) as (Hr & _).
  destruct (send_heartbeat env (set_world tick_sleeps s)) as [s1 r1].
  cbn [fst snd] in *. subst r1. unfold bind at 1.
  destruct (truthy_list (monitor_targets (config (self s)))).
  - pose proof (send_target_metrics_returns env s1) as (Hr' & _).
    destruct (send_target_metrics env s1) as [s2 r2]. cbn [fst snd] in *. by subst r2.
  - reflexivity.
Qed.

(** The sleep of a negative interval raises at once. *)
Lemma monitoring_loop_negative env fuel s :
  running (self s) = true ->
  heartbeat_interval (config (self s)) < 0 ->
  monitoring_loop env (S fuel) s
  = (s, Raise (ValueError "sleep length must be non-negative")).
Proof.
  intros Hrun Hneg. cbn [monitoring_loop]. unfold bind, gets, time_sleep.
  rewrite Hrun. cbn [negb]. by rewrite (proj2 (Z.ltb_lt _ _) Hneg).
Qed.

(** A signal during the sleep clears the flag and leaves through
    [sys.exit(0)]. *)
Lemma monitoring_loop_signalled env fuel s sig :
  running (self s) = true ->
  0 <= heartbeat_interval (config (self s)) ->
  signal_in_sleep env (sleeps (world s)) = Some sig ->
  monitoring_loop env (S fuel) s
  = (set_self (set_running false) (set_world tick_sleeps s), SysExit 0).
Proof.
  intros Hrun Hint Hsig. cbn [monitoring_loop]. unfold bind, gets, time_sleep.
  rewrite Hrun. cbn [negb]. rewrite (proj2 (Z.ltb_ge _ _) Hint), Hsig. reflexivity.
Qed.

Lemma ticks_frame env n s :
  0 <= heartbeat_interval (config (self s)) ->
  (forall j, (j < n)%nat -> signal_in_sleep env (sleeps (world s) + j) = None) ->
  running (self (ticks env n s)) = running (self s)
  /\ config (self (ticks env n s)) = config (self s)
  /\ sleeps (world (ticks env n s)) = (sleeps (world s) + n)%nat.
Proof.
  revert s. induction n as [|n IH]; intros s Hint Hsig.
  - cbn. repeat split; lia.
  - assert (Hsig0 : signal_in_sleep env (sleeps (world s)) = None).
    { rewrite <- (Nat.add_0_r (sleeps (world s))). apply Hsig. lia. }
    destruct (after_tick_frame env s Hint Hsig0) as (Hr & Hc & Hs).
    cbn [ticks]. destruct (IH (after_tick env s)) as (-> & -> & ->).
    + by rewrite Hc.
    + intros j Hj. rewrite Hs. replace (S (sleeps (world s)) + j)%nat
        with (sleeps (world s) + S j)%nat by lia. apply Hsig. lia.
    + rewrite Hr, Hc, Hs. repeat split; lia.
Qed.

(** While the sleeps return, the loop goes from tick to tick. *)
Lemma monitoring_loop_ticks env n fuel s :
  running (self s) = true ->
  0 <= heartbeat_interval (config (self s)) ->
  (forall j, (j < n)%nat -> signal_in_sleep env (sleeps (world s) + j) = None) ->
  monitoring_loop env (n + fuel) s = monitoring_loop env fuel (ticks env n s).
Proof.
  revert s. induction n as [|n IH]; intros s Hrun Hint Hsig; [done|].
  assert (Hsig0 : signal_in_sleep env (sleeps (world s)) = None).
  { rewrite <- (Nat.add_0_r (sleeps (world s))). apply Hsig. lia. }
  destruct (after_tick_frame env s Hint Hsig0) as (Hr & Hc & Hs).
  cbn [Nat.add ticks]. rewrite monitoring_loop_tick by done. apply IH.
  - by rewrite Hr.
  - by rewrite Hc.
  - intros j Hj. rewrite Hs. replace (S (sleeps (world s)) + j)%nat
      with (sleeps (world s) + S j)%nat by lia. apply Hsig. lia.
Qed.

Lemma monitoring_loop_out_of_fuel env s :
  running (self s) = true -> monitoring_loop env 0 s = (s, Return OutOfFuel).
Proof. intros Hrun. cbn. unfold bind, gets. by rewrite Hrun. Qed.

(** X9. When a termination signal arrives during the sleep of iteration
    [k], [run] leaves through [sys.exit(0)] with the running flag cleared,
    and the sink has received exactly what it had received after the [k]
    iterations before: nothing is sent once the signal has arrived. *)
Theorem signal_ends_run_without_sending
    (env : Env) (s : St) (k fuel : nat) (sig : Z) :
  0 <= heartbeat_interval (config (self s)) ->
  (forall j, (j < k)%nat -> signal_in_sleep env (sleeps (world s) + j) = None) ->
  signal_in_sleep env (sleeps (world s) + k) = Some sig ->
  snd (run env (k + S fuel) s) = SysExit 0
  /\ running (self (fst (run env (k + S fuel) s))) = false
  /\ sleeps (world (fst (run env (k + S fuel) s))) = (sleeps (world s) + k + 1)%nat
  /\ sink_calls (world (fst (run env (k + S fuel) s)))
     = sink_calls (world (fst (run env k s))).
Proof.
  intros Hint Hquiet Hsig. rewrite !run_eq.
  destruct (first_round_returns env s) as (_ & Hrun & Hcfg & Hsl).
  set (s0 := fst (first_round env s)) in *.
  assert (Hint0 : 0 <= heartbeat_interval (config (self s0))) by by rewrite Hcfg.
  assert (Hquiet0 : forall j, (j < k)%nat ->
                      signal_in_sleep env (sleeps (world s0) + j) = None)
    by (intros j Hj; rewrite Hsl; by apply Hquiet).
  destruct (ticks_frame env k s0 Hint0 Hquiet0) as (Hr & Hc & Hs).
  unfold try_except.
  rewrite (monitoring_loop_ticks env k (S fuel) s0 Hrun Hint0 Hquiet0).
  rewrite (monitoring_loop_signalled env fuel (ticks env k s0) sig);
    [|by rewrite Hr|by rewrite Hc|by rewrite Hs, Hsl].
  assert (Hk : monitoring_loop env k s0 = (ticks env k s0, Return OutOfFuel)).
  { replace k with (k + 0)%nat at 1 by lia.
    rewrite (monitoring_loop_ticks env k 0 s0 Hrun Hint0 Hquiet0).
    apply monitoring_loop_out_of_fuel. by rewrite Hr. }
  rewrite Hk. cbn. rewrite Hs, Hsl. repeat split; lia.
Qed.

Lemma signal_ends_run_without_sending_witness :
  snd (run (signal_env 2) 5 (beating_state ["10.0.0.1"])) = SysExit 0
  /\ sink_calls (world (fst (run (signal_env 2) 5 (beating_state ["10.0.0.1"]))))
     = sink_calls (world (fst (run (signal_env 2) 2 (beating_state ["10.0.0.1"])))).
Proof.
  assert (Hquiet : forall j, (j < 2)%nat ->
            signal_in_sleep (signal_env 2)
              (sleeps (world (beating_state ["10.0.0.1"])) + j) = None).
  { intros j Hj. destruct j as [|[|j]]; [reflexivity|reflexivity|lia]. }
  destruct (signal_ends_run_without_sending (signal_env 2)
              (beating_state ["10.0.0.1"]) 2 2 15 ltac:(discriminate) Hquiet eq_refl)
    as (Hexit & _ & _ & Hcalls).
  split; [exact Hexit | exact Hcalls].
Defined.

(** X10. With a negative interval, which the loader accepts, [run] sends the
    first heartbeat and sweep, then the first sleep raises; the error is
    caught in [run], the flag is cleared and [run] returns normally, without
    having slept or sent anything more. *)
Theorem negative_interval_ends_run (env : Env) (s : St) (fuel : nat) :
  heartbeat_interval (config (self s)) < 0 ->
  snd (run env (S fuel) s) = Return LoopEnded
  /\ running (self (fst (run env (S fuel) s))) = false
  /\ sleeps (world (fst (run env (S fuel) s))) = sleeps (world s)
  /\ sink_calls (world (fst (run env (S fuel) s)))
     = sink_calls (world (fst (run env 0 s))).
Proof.
  intros Hneg. rewrite !run_eq.
  destruct (first_round_returns env s) as (_ & Hrun & Hcfg & Hsl).
  unfold try_except.
  rewrite monitoring_loop_negative by (done || by rewrite Hcfg).
  rewrite monitoring_loop_out_of_fuel by done.
  cbn beta iota. unfold ret. cbn [fst snd self world set_self running set_running].
  by rewrite Hsl.
Qed.

Lemma negative_interval_ends_run_witness :
  snd (run quiet_env 3 (tuned_state (-5) 5 ["10.0.0.1"])) = Return LoopEnded
  /\ sleeps (world (fst (run quiet_env 3 (tuned_state (-5) 5 ["10.0.0.1"])))) = 0%nat.
Proof.
  destruct (negative_interval_ends_run quiet_env (tuned_state (-5) 5 ["10.0.0.1"]) 2)
    as (Hret & _ & Hsl & _); [reflexivity|].
  split; [exact Hret | exact Hsl].
Defined.

Lemma monitoring_loop_running_when_out_of_fuel env fuel s s' :
  monitoring_loop env fuel s = (s', Return OutOfFuel) -> running (self s') = true.
Proof.
  revert s. induction fuel as [|fuel IH]; intros s.
  - destruct (running (self s)) eqn:Hrun.
    + rewrite monitoring_loop_out_of_fuel by done. by intros [= <-].
    + cbn. unfold bind, gets. rewrite Hrun. discriminate.
  - destruct (running (self s)) eqn:Hrun.
    2:{ cbn [monitoring_loop]. unfold bind, gets. rewrite Hrun. discriminate. }
    destruct (Z.ltb_spec (heartbeat_interval (config (self s))) 0) as [Hneg|Hint].
    { rewrite monitoring_loop_negative by done. discriminate. }
    destruct (signal_in_sleep env (sleeps (world s))) as [sig|] eqn:Hsig.
    { rewrite (monitoring_loop_signalled _ _ _ sig) by done. discriminate. }
    rewrite monitoring_loop_tick by done. apply IH.
Qed.

(** X11. The running flag tells whether the loop is still going: in the
    state that [run] leaves, the flag is set when the loop was cut off by the
    fuel of the model, and cleared whenever the loop has been left, by a
    signal or by an error. *)
Theorem run_flag_follows_loop (env : Env) (fuel : nat) (s : St) :
  running (self (fst (run env fuel s))) = true
  <-> snd (run env fuel s) = Return OutOfFuel.
Proof.
  rewrite run_eq. unfold try_except.
  destruct (monitoring_loop env fuel (fst (first_round env s)))
    as [s' [[|]|e|c]] eqn:Hloop; cbn.
  - split; [discriminate|discriminate].
  - split; [done|]. intros _.
    by apply (monitoring_loop_running_when_out_of_fuel _ _ _ _ Hloop).
  - split; discriminate.
  - split; discriminate.
Qed.

Lemma run_flag_follows_loop_witness :
  running (self (fst (run failing_sink_env 3 (beating_state ["10.0.0.1"])))) = true.
Proof.
  apply (proj2 (run_flag_follows_loop failing_sink_env 3 (beating_state ["10.0.0.1"]))).
  vm_compute. reflexivity.
Defined.

(** ** What reaches the sink *)

Lemma send_heartbeat_sink env s :
  exists pts,
    sink_calls (world (fst (send_heartbeat env s)))
    = (sink_calls (world s) ++ [(cloudwatch_namespace (config (self s)), pts)])%list
    /\ length pts = 2%nat
    /\ is_heartbeat_call (cloudwatch_namespace (config (self s)), pts) = true.
Proof.
  exists (heartbeat_metrics (config (self s)) (clock env (clock_reads (world s)))
            (clock env (S (clock_reads (world s))) - start_time (self s))%Q).
  split; [|by split].
  destruct (heartbeat_sink_answer env s) as [e|] eqn:H.
  - by rewrite (send_heartbeat_raised _ _ _ H).
  - by rewrite (send_heartbeat_accepted _ _ H).
Qed.

Lemma swept_names env cfg ct targets s :
  Forall (fun p => String.eqb (MetricName p) "ContainerHeartbeat" = false)
    (snd (swept env cfg ct targets s)).
Proof.
  revert s. induction targets as [|t rest IH]; intros s; [constructor|].
  cbn [swept snd]. apply Forall_app. split; [|apply IH].
  unfold points_at, target_point_metrics.
  destruct (connection_made env s t); by repeat constructor.
Qed.

Lemma batches_forall (P : MetricPoint -> Prop) metrics :
  Forall P metrics -> Forall (Forall P) (batches metrics).
Proof.
  induction metrics as [|metrics Hne IH] using by_twenties; [constructor|].
  intros Hall. rewrite batches_step by done. constructor.
  - by apply Forall_take.
  - apply IH. by apply Forall_drop.
Qed.

Lemma no_heartbeat_point ns (b : list MetricPoint) :
  Forall (fun p => String.eqb (MetricName p) "ContainerHeartbeat" = false) b ->
  is_heartbeat_call (ns, b) = false.
Proof.
  unfold is_heartbeat_call. cbn [snd]. induction 1 as [|p b Hp _ IH]; [done|].
  simpl. by rewrite Hp, IH.
Qed.

Lemma send_target_metrics_sink env s :
  exists calls,
    sink_calls (world (fst (send_target_metrics env s)))
    = (sink_calls (world s)
       ++ List.map (pair (cloudwatch_namespace (config (self s)))) calls)%list
    /\ Forall (fun b => (1 <= length b <= 20)%nat
                        /\ is_heartbeat_call (cloudwatch_namespace (config (self s)), b)
                           = false) calls.
Proof.
  destruct (monitor_targets (config (self s))) as [|t rest] eqn:Ht.
  - exists []. rewrite send_target_metrics_none by done. cbn.
    by rewrite app_nil_r.
  - rewrite send_target_metrics_eq by (rewrite Ht; done). cbn [fst].
    destruct (attempted_prefix env (cloudwatch_namespace (config (self s)))
                (batches (swept_metrics env s)) (length (sink_calls (world s))))
      as [k Hk].
    exists (take k (batches (swept_metrics env s))). rewrite Hk. split.
    + rewrite log_sink_calls_sink. f_equal. unfold swept_state.
      by destruct (swept_frame env (config (self s)) (clock env (clock_reads (world s)))
                     (monitor_targets (config (self s))) (set_world tick_clock s))
        as (_ & _ & _ & _ & -> & _).
    + apply Forall_take.
      pose proof (batches_bounded (swept_metrics env s)) as Hb.
      pose proof (batches_forall _ _ (swept_names env (config (self s))
                    (clock env (clock_reads (world s)))
                    (monitor_targets (config (self s))) (set_world tick_clock s)))
        as Hn.
      fold (swept_metrics env s) in Hn.
      pose proof (proj2 (Forall_and _ _) (conj Hb Hn)) as Hboth.
      eapply Forall_impl; [exact Hboth|]. cbn beta.
      intros b [Hlen Hnames]. split; [lia|by apply no_heartbeat_point].
Qed.

Lemma send_heartbeat_sink_inv env cfg : preserves (sink_inv cfg) (send_heartbeat env).
Proof.
  intros s [Hc Hall].
  destruct (send_heartbeat_returns env s) as (_ & _ & Hc' & _).
  destruct (send_heartbeat_sink env s) as (pts & Hs & Hlen & _).
  split; [congruence|]. rewrite Hs. apply Forall_app. split; [done|].
  constructor; [|constructor]. cbn. rewrite Hc, Hlen. split; [done|lia].
Qed.

Lemma send_target_metrics_sink_inv env cfg :
  preserves (sink_inv cfg) (send_target_metrics env).
Proof.
  intros s [Hc Hall].
  destruct (send_target_metrics_returns env s) as (_ & _ & Hc' & _).
  destruct (send_target_metrics_sink env s) as (calls & Hs & Hcalls).
  split; [congruence|]. rewrite Hs. apply Forall_app. split; [done|].
  apply Forall_map. eapply Forall_impl; [exact Hcalls|].
  intros b [Hb _]. cbn. by rewrite Hc.
Qed.

Lemma time_sleep_sink_inv env cfg secs : preserves (sink_inv cfg) (time_sleep env secs).
Proof.
  intros s Hs. unfold time_sleep. destruct (secs <? 0); [done|].
  destruct (signal_in_sleep env (sleeps (world s))); done.
Qed.

Lemma monitoring_loop_sink_inv env cfg fuel :
  preserves (sink_inv cfg) (monitoring_loop env fuel).
Proof.
  induction fuel as [|fuel IH]; cbn [monitoring_loop].
  - apply preserves_bind; [apply preserves_gets|]. intros r.
    destruct (negb r); apply preserves_ret.
  - apply preserves_bind; [apply preserves_gets|]. intros r.
    destruct (negb r); [apply preserves_ret|].
    apply preserves_bind; [apply preserves_gets|]. intros c.
    apply preserves_bind; [apply time_sleep_sink_inv|]. intros _.
    apply preserves_bind; [apply preserves_gets|]. intros r'.
    destruct (negb r'); [apply preserves_ret|].
    apply preserves_bind; [apply send_heartbeat_sink_inv|]. intros _.
    apply preserves_bind; [|intros _; exact IH].
    destruct (truthy_list (monitor_targets c));
      [apply send_target_metrics_sink_inv|apply preserves_ret].
Qed.

Lemma first_round_sink_inv env cfg : preserves (sink_inv cfg) (first_round env).
Proof.
  unfold first_round.
  apply preserves_bind; [by apply preserves_modify|]. intros _.
  apply preserves_bind; [apply preserves_gets|]. intros c.
  apply preserves_bind; [apply send_heartbeat_sink_inv|]. intros _.
  destruct (truthy_list (monitor_targets c));
    [apply send_target_metrics_sink_inv|apply preserves_ret].
Qed.

Lemma run_sink_inv env cfg fuel : preserves (sink_inv cfg) (run env fuel).
Proof.
  intros s Hs. rewrite run_eq.
  pose proof (preserves_try_except (sink_inv cfg) (monitoring_loop env fuel)
                (fun e => ret LoopEnded) (monitoring_loop_sink_inv env cfg fuel)
                (fun e => preserves_ret _ _) _ (first_round_sink_inv env cfg s Hs))
    as Hloop.
  destruct (try_except (monitoring_loop env fuel) (fun e => ret LoopEnded)
              (fst (first_round env s))) as [s' [[|]|e|c]]; exact Hloop.
Qed.

(** X12. From construction on, whatever the outside world does, every call
    that [run] makes to the sink uses the configured namespace and carries at
    least 1 and at most 20 points: the sink is never called with an empty
    batch. *)
Theorem sink_calls_are_well_formed
    (env : Env) (environ : gmap string string) (hostname : string)
    (w : World) (m : Monitor) (fuel : nat) :
  __init__ env environ hostname world0 = (w, Return m) ->
  Forall (fun call => call.1 = cloudwatch_namespace (config m)
                      /\ (1 <= length call.2 <= 20)%nat)
    (sink_calls (world (fst (run env fuel {| world := w; self := m |})))).
Proof.
  intros Hinit.
  assert (Hs : sink_inv (config m) {| world := w; self := m |}).
  { split; [done|]. revert Hinit. unfold __init__.
    destruct (_load_config environ hostname); [|done|done].
    destruct (list_metrics env); [done|]. intros [= <- _]. constructor. }
  by destruct (run_sink_inv env (config m) fuel _ Hs) as [_ Hall].
Qed.

Lemma sink_calls_are_well_formed_witness :
  Forall (fun call => call.1 = "ContainerMonitoring/Heartbeat"
                      /\ (1 <= length call.2 <= 20)%nat)
    (sink_calls (world (fst (run quiet_env 2 (built environ_pair))))).
Proof.
  assert (Hinit : __init__ quiet_env environ_pair "host" world0
                  = (world (built environ_pair), Return (self (built environ_pair))))
    by (vm_compute; reflexivity).
  exact (sink_calls_are_well_formed quiet_env environ_pair "host" _ _ 2 Hinit).
Defined.









(** ** Exit statuses *)

Lemma load_config_exit_code environ hostname c :
  _load_config environ hostname = SysExit c -> c = 1.
Proof.
  unfold _load_config, py_int.
  repeat (match goal with
          | |- context [PyStr.parse_int ?x] => destruct (PyStr.parse_int x)
          end; cbn [rbind]); try discriminate.
  destruct (_ || _); [|discriminate]. by intros [= <-].
Qed.

(** X14. The process leaves through [sys.exit] with status 1 only at
    startup, before any sleep and before anything is sent to the sink, and
    with status 0 only after a termination signal. *)
Theorem exit_status_tells_startup_from_signal
    (env : Env) (environ : gmap string string) (hostname : string)
    (fuel : nat) (c : Z) :
  snd (main env environ hostname fuel) = SysExit c ->
  (c = 1
   /\ sink_calls (fst (main env environ hostname fuel)) = []
   /\ sleeps (fst (main env environ hostname fuel)) = 0%nat)
  \/ (c = 0 /\ exists n, signal_in_sleep env n <> None).
Proof.
  unfold main, __init__.
  destruct (_load_config environ hostname) as [cfg|e|c0] eqn:Hload.
  - destruct (list_metrics env) as [e|].
    + cbn. intros [= <-]. by left.
    + rewrite run_eq.
      match goal with
      | |- context [first_round env ?s] => set (s0 := s)
      end.
      destruct (first_round_returns env s0) as (_ & Hrun & _).
      destruct (monitoring_loop_exits env fuel _ Hrun)
        as [Hout | [[Hexit Hsig] | [Hraise _]]];
        unfold try_except;
        destruct (monitoring_loop env fuel (fst (first_round env s0))) as [s' r];
        cbn [snd] in *; subst r; cbn; try discriminate.
      intros [= <-]. by right.
  - cbn. discriminate.
  - cbn. intros [= <-]. left. by rewrite (load_config_exit_code _ _ _ Hload).
Qed.

Lemma exit_status_tells_startup_from_signal_witness :
  snd (main (signal_env 1) environ_pair "host" 4) = SysExit 0
  /\ exists n, signal_in_sleep (signal_env 1) n <> None.
Proof.
  assert (Hexit : snd (main (signal_env 1) environ_pair "host" 4) = SysExit 0)
    by (vm_compute; reflexivity).
  split; [exact Hexit|].
  destruct (exit_status_tells_startup_from_signal _ _ _ _ _ Hexit)
    as [[Hone _] | [_ Hsig]]; [discriminate Hone | exact Hsig].
Defined.

(** ** The metrics view *)






(** ** The container health check *)

(** X16. The health check passes in two cases only, and in both HEALTH_PORT
    has to parse: with the endpoint enabled, when the request to
    http://localhost:<port>/health is answered with status 200 and a
    dictionary whose "status" is "healthy"; with the endpoint disabled, when
    the module [monitor] can be imported, whatever the monitor itself does.
    Every exception and every other answer gives [False]. *)
Theorem health_check_passes_iff (environ : gmap string string) (cenv : CheckEnv) :
  (check_health environ cenv).2 = true
  <-> exists port,
        PyStr.parse_int (getenv_default environ "HEALTH_PORT" "8080") = Some port
        /\ ((spells_true (getenv_default environ "ENABLE_HEALTH_ENDPOINT" "false")
             /\ answers_healthy cenv port)
            \/ (~ spells_true (getenv_default environ "ENABLE_HEALTH_ENDPOINT" "false")
                /\ import_monitor cenv = Imported)).
Proof.
  unfold check_health, check_health_try, answers_healthy.
  fold (health_url).
  destruct (PyStr.parse_int (getenv_default environ "HEALTH_PORT" "8080"))
    as [port|].
  2:{ split; [discriminate|]. by intros (port & [=] & _). }
  change ("http://localhost:" ++ pretty port ++ "/health")%string with (health_url port).
  destruct (String.eqb (PyStr.lower (getenv_default environ "ENABLE_HEALTH_ENDPOINT" "false"))
              "true") eqn:Hen.
  - apply lower_spells_true in Hen.
    destruct (requests_get cenv (health_url port)) as [e|response] eqn:Hget.
    { split; [destruct e; discriminate|].
      intros (p & [= <-] & [[_ (r & f & Hg & _)] | [Hno _]]); [congruence|done]. }
    destruct (Z.eqb_spec (status_code response) 200) as [Hcode|Hcode].
    2:{ split; [discriminate|].
        intros (p & [= <-] & [[_ (r & f & Hg & Hc & _)] | [Hno _]]); [|done].
        rewrite Hget in Hg. injection Hg as <-. done. }
    destruct (response_json response) as [e|data] eqn:Hjson.
    { split; [destruct e; discriminate|].
      intros (p & [= <-] & [[_ (r & f & Hg & _ & Hj & _)] | [Hno _]]); [|done].
      rewrite Hget in Hg. injection Hg as <-. congruence. }
    destruct data as [| | | | | |fields];
      try (split; [discriminate|];
           intros (p & [= <-] & [[_ (r & f & Hg & _ & Hj & _)] | [Hno _]]); [|done];
           rewrite Hget in Hg; injection Hg as <-; congruence).
    cbn [json_get].
    destruct (is_healthy (snd <$> List.find (fun kv => String.eqb kv.1 "status") fields))
      eqn:Hh; cbn.
    + split; [|done]. intros _. exists port. split; [done|]. left. split; [done|].
      by exists response, fields.
    + split; [discriminate|].
      intros (p & [= <-] & [[_ (r & f & Hg & _ & Hj & Hh')] | [Hno _]]); [|done].
      rewrite Hget in Hg. injection Hg as <-. rewrite Hjson in Hj.
      injection Hj as <-. congruence.
  - assert (Hno : ~ spells_true (getenv_default environ "ENABLE_HEALTH_ENDPOINT" "false")).
    { intros H. apply lower_spells_true in H. congruence. }
    destruct (import_monitor cenv) as [|msg|e] eqn:Himp; cbn.
    + split; [|done]. intros _. exists port. split; [done|]. by right.
    + split; [discriminate|]. intros (p & _ & [[Hyes _] | [_ [=]]]). done.
    + split; [destruct e; discriminate|].
      intros (p & _ & [[Hyes _] | [_ [=]]]). done.
Qed.

Lemma health_check_passes_iff_witness :
  (check_health environ_endpoint (served_by quiet_env running_endpoint_state)).2 = true.
Proof.
  apply (proj2 (health_check_passes_iff environ_endpoint
                  (served_by quiet_env running_endpoint_state))).
  exists 9090. split; [vm_compute; reflexivity|]. left. split.
  - exists "T"%char, "R"%char, "U"%char, "E"%char.
    split; [reflexivity|]. repeat split; by right.
  - eexists _, _. split; [reflexivity|]. split; [reflexivity|].
    split; [reflexivity|]. vm_compute. reflexivity.
Defined.

Lemma jsonify_status doc :
  json_get (jsonify doc) "status" = inr (Some (JStr (status doc))).
Proof. reflexivity. Qed.

(** X17. The monitor and its health check read the same settings: for an
    environment that [_load_config] accepts with the endpoint enabled, the
    check asks the port that the monitor serves, and when that request is
    answered with the document of the health view of the monitor, the check
    passes exactly when the running flag of the monitor is set. *)
Theorem health_check_follows_running_flag
    (environ : gmap string string) (hostname : string) (cfg : Config)
    (cenv : CheckEnv) (env : Env) (s s' : St) (doc : HealthData) :
  _load_config environ hostname = Return cfg ->
  enable_health_endpoint cfg = true ->
  health env s = (s', Return doc) ->
  requests_get cenv (health_url (health_port cfg))
  = inr {| status_code := 200; response_json := inr (jsonify doc) |} ->
  (check_health environ cenv).2 = running (self s)
  /\ health_check_main environ cenv = (if running (self s) then 0 else 1).
Proof.
  intros Hload Hen Hdoc Hget.
  assert (Hcfg : PyStr.parse_int (getenv_default environ "HEALTH_PORT" "8080")
                 = Some (health_port cfg)
                 /\ String.eqb (PyStr.lower (getenv_default environ
                                   "ENABLE_HEALTH_ENDPOINT" "false")) "true" = true).
  { revert Hload Hen. unfold _load_config, py_int.
    destruct (PyStr.parse_int (getenv_default environ "HEARTBEAT_INTERVAL" "300"));
      [|discriminate].
    destruct (PyStr.parse_int (getenv_default environ "TARGET_PORT" "80"));
      [|discriminate].
    destruct (PyStr.parse_int (getenv_default environ "TARGET_TIMEOUT" "5"));
      [|discriminate].
    destruct (PyStr.parse_int (getenv_default environ "HEALTH_PORT" "8080"));
      [|discriminate].
    cbn [rbind]. destruct (_ || _); [discriminate|]. by intros [= <-]. }
  destruct Hcfg as [Hport Hflag].
  assert (Hcheck : (check_health environ cenv).2 = running (self s)).
  { unfold check_health, check_health_try. rewrite Hport, Hflag.
    change ("http://localhost:" ++ pretty (health_port cfg) ++ "/health")%string
      with (health_url (health_port cfg)).
    rewrite Hget. cbn [status_code response_json Z.eqb Pos.eqb].
    rewrite jsonify_status. rewrite health_eq in Hdoc. injection Hdoc as _ <-.
    cbn [status is_healthy]. by destruct (running (self s)). }
  split; [exact Hcheck|]. unfold health_check_main. by rewrite Hcheck.
Qed.

Lemma health_check_follows_running_flag_witness :
  (check_health environ_endpoint (served_by quiet_env stopped_endpoint_state)).2 = false
  /\ health_check_main environ_endpoint (served_by quiet_env stopped_endpoint_state) = 1.
Proof.
  assert (Hload : _load_config environ_endpoint "host"
                  = Return (config_of environ_endpoint "host" 300 80 5 9090))
    by (vm_compute; reflexivity).
  exact (health_check_follows_running_flag environ_endpoint "host" _
           (served_by quiet_env stopped_endpoint_state) quiet_env
           stopped_endpoint_state _ _ Hload eq_refl (health_eq _ _) eq_refl).
Defined.
